(** * bounded_int_calc: interval arithmetic for Cairo BoundedInt helper impls

    A shallow embedding of [skills/cairo-coding/bounded_int_calc.py] and the
    properties of its four interval operations, of the felt252 range check and
    of the way the program terminates.

    Python integers are unbounded, so they are modelled by [Z]; Python's [//]
    is floor division, which is [Z.div] for a non-zero divisor and raises
    [ZeroDivisionError] for a zero one; the conversion of an integer to text
    raises [ValueError] above CPython's digit limit.  Printing, [sys.exit]
    and uncaught exceptions are modelled by a small writer/exception monad
    [IO]. *)

From Stdlib Require Import ZArith List String Ascii Bool Lia DecimalString.
Import ListNotations.
Local Open Scope Z_scope.

(* ===================================================================== *)
(** ** The Python runtime the program relies on *)
(* ===================================================================== *)

Module Py.

(** The two built-in exceptions the operations used below can raise. *)
Inductive exn : Type :=
| ZeroDivisionError
| ValueError.

(** How a computation ends: it returns a value, calls [sys.exit(code)], or
    raises an exception that nothing in the program catches. *)
Inductive outcome (A : Type) : Type :=
| Returned (a : A)
| Exited (code : Z)
| Raised (e : exn).
Arguments Returned {A} a.
Arguments Exited {A} code.
Arguments Raised {A} e.

(** What the process writes, in order: a [print(...)] to standard output, a
    [print(..., file=sys.stderr)], or the traceback the interpreter writes to
    standard error for an uncaught exception. *)
Inductive event : Type :=
| Stdout (line : string)
| Stderr (line : string)
| Traceback (e : exn).

(** A computation: the events it emitted, then its outcome. *)
Definition IO (A : Type) : Type := (list event * outcome A)%type.

Definition ret {A : Type} (a : A) : IO A := ([], Returned a).

Definition bind {A B : Type} (m : IO A) (f : A -> IO B) : IO B :=
  match m with
  | (t, Returned a) => let (t', o) := f a in (t ++ t', o)
  | (t, Exited c) => (t, Exited c)
  | (t, Raised e) => (t, Raised e)
  end.

Definition print (s : string) : IO unit := ([Stdout s], Returned tt).
Definition eprint (s : string) : IO unit := ([Stderr s], Returned tt).
Definition sys_exit {A : Type} (code : Z) : IO A := ([], Exited code).
Definition raise {A : Type} (e : exn) : IO A := ([], Raised e).

(** [a // b] *)
Definition floordiv (a b : Z) : IO Z :=
  if b =? 0 then raise ZeroDivisionError else ret (a / b).

(** The default limit of CPython (3.11 and later) on the number of decimal
    digits in a conversion between [int] and [str],
    [sys.int_info.default_max_str_digits]. *)
Definition MAX_STR_DIGITS : Z := 4300.

(** The smallest magnitude that has more than [MAX_STR_DIGITS] digits. *)
Definition str_limit : Z := 10 ^ MAX_STR_DIGITS.

(** The decimal digits of an integer, with a leading minus sign for a
    negative one. *)
Definition decimal (n : Z) : string := NilZero.string_of_int (Z.to_int n).

(** [str(n)] for an integer, which is also what an f-string does with [{n}]:
    the decimal text, or [ValueError] when the integer has more than
    [MAX_STR_DIGITS] digits (the sign does not count). *)
Definition str (n : Z) : IO string :=
  if Z.abs n <? str_limit then ret (decimal n) else raise ValueError.

(** [abs(n)] *)
Definition abs (n : Z) : Z := Z.abs n.

(** [min(l)] and [max(l)] of a list: the first element is the candidate, and
    a later element replaces it when it is strictly smaller (larger); an
    empty list raises [ValueError]. *)
Definition min (l : list Z) : IO Z :=
  match l with
  | [] => raise ValueError
  | x :: xs => ret (fold_left (fun m y => if y <? m then y else m) xs x)
  end.

Definition max (l : list Z) : IO Z :=
  match l with
  | [] => raise ValueError
  | x :: xs => ret (fold_left (fun m y => if m <? y then y else m) xs x)
  end.

(** The process as seen from outside: everything written, and the exit
    status.  Returning from the main function gives status 0, [sys.exit(c)]
    gives [c], and an uncaught exception makes the interpreter write a
    traceback to standard error and exit with status 1. *)
Record process : Type := Process {
  trace : list event;
  exit_status : Z
}.

Definition run (m : IO unit) : process :=
  match m with
  | (t, Returned _) => Process t 0
  | (t, Exited c) => Process t c
  | (t, Raised e) => Process (t ++ [Traceback e]) 1
  end.

Definition is_stdout (e : event) : bool :=
  match e with Stdout _ => true | _ => false end.

Definition stdout (p : process) : list event := filter is_stdout (trace p).
Definition stderr (p : process) : list event :=
  filter (fun e => negb (is_stdout e)) (trace p).

End Py.

Import Py.

Arguments str_limit : simpl never.

Declare Scope io_scope.
Delimit Scope io_scope with io.
Notation "x <- c1 ;; c2" := (bind c1 (fun x => c2))
  (at level 61, c1 at next level, right associativity) : io_scope.
Notation "' pat <- c1 ;; c2" := (bind c1 (fun x => match x with pat => c2 end))
  (at level 61, pat pattern, c1 at next level, right associativity) : io_scope.
Notation "c1 ;; c2" := (bind c1 (fun _ => c2))
  (at level 61, right associativity) : io_scope.
Local Open Scope io_scope.

(** The newline character inside the triple-quoted templates. *)
Definition nl : string := String (ascii_of_nat 10) EmptyString.

(* ===================================================================== *)
(** ** The program *)
(* ===================================================================== *)

(** felt252 prime (for validation) *)
Definition FELT252_PRIME : Z :=
  0x800000000000011000000000000000000000000000000000000000000000001.

(** Warn if value exceeds felt252 range. *)
Definition validate_felt252 (value : Z) (name : string) : IO unit :=
  if value <? 0 then
    if Py.abs value >=? FELT252_PRIME then
      s <- str value ;;
      eprint ("WARNING: " ++ name ++ " = " ++ s ++ " exceeds felt252 range!")
    else ret tt
  else if value >=? FELT252_PRIME then
    s <- str value ;;
    eprint ("WARNING: " ++ name ++ " = " ++ s ++ " exceeds felt252 range!")
  else ret tt.

(** Format a bound value, handling negatives. *)
Definition format_bound (value : Z) : IO string :=
  if value <? 0 then str value else str value.

(** Calculate addition bounds: [a_lo + b_lo, a_hi + b_hi] *)
Definition calc_add (a_lo a_hi b_lo b_hi : Z) : Z * Z :=
  let result_lo := a_lo + b_lo in
  let result_hi := a_hi + b_hi in
  (result_lo, result_hi).

(** Calculate subtraction bounds: [a_lo - b_hi, a_hi - b_lo] *)
Definition calc_sub (a_lo a_hi b_lo b_hi : Z) : Z * Z :=
  let result_lo := a_lo - b_hi in
  let result_hi := a_hi - b_lo in
  (result_lo, result_hi).

(** Calculate multiplication bounds: evaluate all corners. *)
Definition calc_mul (a_lo a_hi b_lo b_hi : Z) : IO (Z * Z) :=
  let corners := [a_lo * b_lo; a_lo * b_hi; a_hi * b_lo; a_hi * b_hi] in
  lo <- Py.min corners ;;
  hi <- Py.max corners ;;
  ret (lo, hi).

(** Calculate division bounds.
    Quotient: [a_lo // b_hi, a_hi // b_lo];  Remainder: [0, b_hi - 1]. *)
Definition calc_div (a_lo a_hi b_lo b_hi : Z) : IO ((Z * Z) * (Z * Z)) :=
  (if b_lo <=? 0 then
     eprint "ERROR: Divisor lower bound must be positive!" ;;
     sys_exit 1
   else ret tt) ;;
  (if a_lo <? 0 then
     eprint "ERROR: Dividend lower bound must be non-negative! Cairo's bounded_int_div_rem does not support negative dividends." ;;
     sys_exit 1
   else ret tt) ;;
  quot_lo <- floordiv a_lo b_hi ;;
  quot_hi <- floordiv a_hi b_lo ;;
  let rem_lo := 0 in
  let rem_hi := b_hi - 1 in
  ret ((quot_lo, quot_hi), (rem_lo, rem_hi)).

(** The renderers.  An f-string converts its fields from left to right. *)
Definition generate_add_impl (a_lo a_hi b_lo b_hi : Z) (name : string) : IO string :=
  let '(result_lo, result_hi) := calc_add a_lo a_hi b_lo b_hi in
  validate_felt252 result_lo "Result min" ;;
  validate_felt252 result_hi "Result max" ;;
  s_a_lo <- format_bound a_lo ;;
  s_a_hi <- format_bound a_hi ;;
  s_b_lo <- format_bound b_lo ;;
  s_b_hi <- format_bound b_hi ;;
  s_result_lo <- format_bound result_lo ;;
  s_result_hi <- format_bound result_hi ;;
  ret ("impl " ++ name ++ " of AddHelper<BoundedInt<" ++ s_a_lo ++ ", "
       ++ s_a_hi ++ ">, BoundedInt<" ++ s_b_lo ++ ", "
       ++ s_b_hi ++ ">> {" ++ nl
       ++ "    type Result = BoundedInt<" ++ s_result_lo ++ ", "
       ++ s_result_hi ++ ">;" ++ nl
       ++ "}")%string.

Definition generate_sub_impl (a_lo a_hi b_lo b_hi : Z) (name : string) : IO string :=
  let '(result_lo, result_hi) := calc_sub a_lo a_hi b_lo b_hi in
  validate_felt252 result_lo "Result min" ;;
  validate_felt252 result_hi "Result max" ;;
  s_a_lo <- format_bound a_lo ;;
  s_a_hi <- format_bound a_hi ;;
  s_b_lo <- format_bound b_lo ;;
  s_b_hi <- format_bound b_hi ;;
  s_result_lo <- format_bound result_lo ;;
  s_result_hi <- format_bound result_hi ;;
  ret ("impl " ++ name ++ " of SubHelper<BoundedInt<" ++ s_a_lo ++ ", "
       ++ s_a_hi ++ ">, BoundedInt<" ++ s_b_lo ++ ", "
       ++ s_b_hi ++ ">> {" ++ nl
       ++ "    type Result = BoundedInt<" ++ s_result_lo ++ ", "
       ++ s_result_hi ++ ">;" ++ nl
       ++ "}")%string.

Definition generate_mul_impl (a_lo a_hi b_lo b_hi : Z) (name : string) : IO string :=
  '(result_lo, result_hi) <- calc_mul a_lo a_hi b_lo b_hi ;;
  validate_felt252 result_lo "Result min" ;;
  validate_felt252 result_hi "Result max" ;;
  s_a_lo <- format_bound a_lo ;;
  s_a_hi <- format_bound a_hi ;;
  s_b_lo <- format_bound b_lo ;;
  s_b_hi <- format_bound b_hi ;;
  s_result_lo <- format_bound result_lo ;;
  s_result_hi <- format_bound result_hi ;;
  ret ("impl " ++ name ++ " of MulHelper<BoundedInt<" ++ s_a_lo ++ ", "
       ++ s_a_hi ++ ">, BoundedInt<" ++ s_b_lo ++ ", "
       ++ s_b_hi ++ ">> {" ++ nl
       ++ "    type Result = BoundedInt<" ++ s_result_lo ++ ", "
       ++ s_result_hi ++ ">;" ++ nl
       ++ "}")%string.

Definition generate_div_impl (a_lo a_hi b_lo b_hi : Z) (name : string) : IO string :=
  '((quot_lo, quot_hi), (rem_lo, rem_hi)) <- calc_div a_lo a_hi b_lo b_hi ;;
  validate_felt252 quot_lo "Quotient min" ;;
  validate_felt252 quot_hi "Quotient max" ;;
  validate_felt252 rem_lo "Remainder min" ;;
  validate_felt252 rem_hi "Remainder max" ;;
  s_a_lo <- format_bound a_lo ;;
  s_a_hi <- format_bound a_hi ;;
  s_b_lo <- format_bound b_lo ;;
  s_b_hi <- format_bound b_hi ;;
  s_quot_lo <- format_bound quot_lo ;;
  s_quot_hi <- format_bound quot_hi ;;
  s_rem_lo <- format_bound rem_lo ;;
  s_rem_hi <- format_bound rem_hi ;;
  ret ("impl " ++ name ++ " of DivRemHelper<BoundedInt<" ++ s_a_lo ++ ", "
       ++ s_a_hi ++ ">, BoundedInt<" ++ s_b_lo ++ ", "
       ++ s_b_hi ++ ">> {" ++ nl
       ++ "    type DivT = BoundedInt<" ++ s_quot_lo ++ ", "
       ++ s_quot_hi ++ ">;" ++ nl
       ++ "    type RemT = BoundedInt<" ++ s_rem_lo ++ ", "
       ++ s_rem_hi ++ ">;" ++ nl
       ++ "}")%string.

(** The subcommand chosen on the command line: [add], [sub], [mul] or [div]. *)
Inductive Operation : Type := Add | Sub | Mul | Div.

(** The namespace [parser.parse_args()] returns. *)
Record Args : Type := MkArgs {
  operation : Operation;
  arg_a_lo : Z;
  arg_a_hi : Z;
  arg_b_lo : Z;
  arg_b_hi : Z;
  arg_name : string
}.

(** The dispatch at the end of [main], on the parsed arguments. *)
Definition main (args : Args) : IO unit :=
  match operation args with
  | Add =>
      s <- generate_add_impl (arg_a_lo args) (arg_a_hi args) (arg_b_lo args) (arg_b_hi args) (arg_name args) ;;
      print s
  | Sub =>
      s <- generate_sub_impl (arg_a_lo args) (arg_a_hi args) (arg_b_lo args) (arg_b_hi args) (arg_name args) ;;
      print s
  | Mul =>
      s <- generate_mul_impl (arg_a_lo args) (arg_a_hi args) (arg_b_lo args) (arg_b_hi args) (arg_name args) ;;
      print s
  | Div =>
      s <- generate_div_impl (arg_a_lo args) (arg_a_hi args) (arg_b_lo args) (arg_b_hi args) (arg_name args) ;;
      print s
  end.

(* ===================================================================== *)
(** ** Vocabulary of the specification *)
(* ===================================================================== *)

(** The four corner products of the rectangle spanned by two intervals. *)
Definition corner_products (a_lo a_hi b_lo b_hi : Z) : list Z :=
  [a_lo * b_lo; a_lo * b_hi; a_hi * b_lo; a_hi * b_hi].

(** The negation of an interval, in the specification's words:
    Neg(B) = (-B.hi, -B.lo). *)
Definition Neg (b : Z * Z) : Z * Z := (- snd b, - fst b).

(** The value lies in [-(modulus-1), modulus-1]. *)
Definition in_felt252_range (value : Z) : Prop :=
  - (FELT252_PRIME - 1) <= value <= FELT252_PRIME - 1.

(** The integer has few enough digits for [str]: at most [MAX_STR_DIGITS].
    Every integer that [parse_args] delivers is of this kind, since its
    [type=int] conversion is under the same limit. *)
Definition renders (value : Z) : Prop := Z.abs value < str_limit.

(** A fatal failure as an observer of the process sees it: something was
    written to the error channel, the exit status is not zero, and nothing
    (so no declaration) was written to standard output. *)
Definition fails_fatally (p : process) : Prop :=
  stderr p <> [] /\ exit_status p <> 0 /\ stdout p = [].

(** An integer lies in the closed interval (lo, hi). *)
Definition member (x : Z) (i : Z * Z) : Prop := fst i <= x <= snd i.

(** The closed interval [i] lies inside the closed interval [j]. *)
Definition included (i j : Z * Z) : Prop := fst j <= fst i /\ snd i <= snd j.

(** The width hi - lo of an interval. *)
Definition width (i : Z * Z) : Z := snd i - fst i.

(** The renderer [main] calls for each subcommand. *)
Definition generate_impl (op : Operation) : Z -> Z -> Z -> Z -> string -> IO string :=
  match op with
  | Add => generate_add_impl
  | Sub => generate_sub_impl
  | Mul => generate_mul_impl
  | Div => generate_div_impl
  end.

(** The bounds the renderer of each subcommand computes first, validates and
    then renders: the result interval, or for division the quotient and the
    remainder interval. *)
Definition result_bounds (op : Operation) (a_lo a_hi b_lo b_hi : Z) : IO (list Z) :=
  match op with
  | Add => let '(lo, hi) := calc_add a_lo a_hi b_lo b_hi in ret [lo; hi]
  | Sub => let '(lo, hi) := calc_sub a_lo a_hi b_lo b_hi in ret [lo; hi]
  | Mul => '(lo, hi) <- calc_mul a_lo a_hi b_lo b_hi ;; ret [lo; hi]
  | Div =>
      '((q_lo, q_hi), (r_lo, r_hi)) <- calc_div a_lo a_hi b_lo b_hi ;;
      ret [q_lo; q_hi; r_lo; r_hi]
  end.

(** What [validate_felt252] writes for a value that [str] can convert: one
    warning line, or nothing. *)
Definition warn (value : Z) (name : string) : list event :=
  if (value <=? - FELT252_PRIME) || (FELT252_PRIME <=? value)
  then [Stderr ("WARNING: " ++ name ++ " = " ++ decimal value ++ " exceeds felt252 range!")]
  else [].

(** A trace that holds nothing but lines printed to the error channel. *)
Definition silent (w : list event) : Prop :=
  Forall (fun e => exists line, e = Stderr line) w.

(** A computation that writes only to the error channel and either returns
    or raises [ValueError]. *)
Definition quiet {A : Type} (m : IO A) : Prop :=
  silent (fst m) /\ (snd m = Raised ValueError \/ exists a, snd m = Returned a).

(* ===================================================================== *)
(** ** Auxiliary facts *)
(* ===================================================================== *)

Lemma FELT252_PRIME_value : FELT252_PRIME = 2 ^ 251 + 17 * 2 ^ 192 + 1.
Proof. reflexivity. Qed.

Lemma FELT252_PRIME_pos : 0 < FELT252_PRIME.
Proof. reflexivity. Qed.

Lemma str_limit_pos : 0 < str_limit.
Proof.
  unfold str_limit. apply Z.pow_pos_nonneg; [lia | unfold MAX_STR_DIGITS; lia].
Qed.

(** The modulus has 76 digits, far below the limit of [str]. *)
Lemma FELT252_PRIME_lt_str_limit : FELT252_PRIME < str_limit.
Proof.
  apply Z.lt_le_trans with (10 ^ 77); [reflexivity |].
  unfold str_limit. apply Z.pow_le_mono_r; [lia | unfold MAX_STR_DIGITS; lia].
Qed.

Lemma renders_dec (value : Z) : {renders value} + {~ renders value}.
Proof. apply Z_lt_dec. Qed.

Lemma in_felt252_range_renders (value : Z) : in_felt252_range value -> renders value.
Proof.
  unfold in_felt252_range, renders. pose proof FELT252_PRIME_lt_str_limit. lia.
Qed.

Lemma small_renders (value : Z) : Z.abs value < FELT252_PRIME -> renders value.
Proof. unfold renders. pose proof FELT252_PRIME_lt_str_limit. lia. Qed.

Lemma not_renders_out_of_range (value : Z) :
  ~ renders value -> value <= - FELT252_PRIME \/ FELT252_PRIME <= value.
Proof.
  unfold renders. pose proof FELT252_PRIME_lt_str_limit. lia.
Qed.

Lemma bind_ret_l {A B : Type} (a : A) (f : A -> IO B) : bind (ret a) f = f a.
Proof. unfold bind, ret. destruct (f a); reflexivity. Qed.

Lemma bind_returned {A B : Type} (t : list event) (a : A) (f : A -> IO B) :
  bind (t, Returned a) f = (t ++ fst (f a), snd (f a)).
Proof. unfold bind. destruct (f a); reflexivity. Qed.

Lemma bind_exited {A B : Type} (t : list event) (c : Z) (f : A -> IO B) :
  bind (t, Exited c) f = (t, Exited c).
Proof. reflexivity. Qed.

Lemma bind_raised {A B : Type} (t : list event) (e : exn) (f : A -> IO B) :
  bind (t, Raised e) f = (t, Raised e).
Proof. reflexivity. Qed.

(** A sequence returns only if its first part returns and the rest, run on
    what the first part returned, returns too. *)
Lemma bind_returned_inv {A B : Type} (m : IO A) (f : A -> IO B) (b : B) :
  snd (bind m f) = Returned b ->
  exists a, snd m = Returned a /\ snd (f a) = Returned b.
Proof.
  destruct m as [t [a | c | e]]; cbn [bind snd]; try discriminate.
  intros H. exists a. split; [reflexivity |].
  destruct (f a). exact H.
Qed.

(** *** Conversion to text *)

Lemma str_renders (value : Z) : renders value -> str value = ret (decimal value).
Proof.
  unfold renders, str. intros H.
  destruct (Z.ltb_spec (Z.abs value) str_limit); [reflexivity | lia].
Qed.

Lemma str_too_long (value : Z) : ~ renders value -> str value = raise ValueError.
Proof.
  unfold renders, str. intros H.
  destruct (Z.ltb_spec (Z.abs value) str_limit); [contradiction | reflexivity].
Qed.

Lemma format_bound_renders (value : Z) :
  renders value -> format_bound value = ret (decimal value).
Proof.
  intros H. unfold format_bound. rewrite (str_renders value H).
  destruct (value <? 0); reflexivity.
Qed.

Lemma format_bound_too_long (value : Z) :
  ~ renders value -> format_bound value = raise ValueError.
Proof.
  intros H. unfold format_bound. rewrite (str_too_long value H).
  destruct (value <? 0); reflexivity.
Qed.

Lemma format_bound_returned_inv (value : Z) (s : string) :
  snd (format_bound value) = Returned s -> renders value.
Proof.
  intros H. destruct (renders_dec value) as [Hr | Hn]; [exact Hr |].
  rewrite (format_bound_too_long value Hn) in H. discriminate H.
Qed.

(** *** The validator *)

Lemma validate_felt252_in_range (value : Z) (name : string) :
  in_felt252_range value -> validate_felt252 value name = ret tt.
Proof.
  unfold in_felt252_range, validate_felt252, Py.abs. intros H.
  pose proof FELT252_PRIME_pos as HP.
  rewrite !Z.geb_leb.
  destruct (Z.ltb_spec value 0).
  - destruct (Z.leb_spec FELT252_PRIME (Z.abs value)); [lia | reflexivity].
  - destruct (Z.leb_spec FELT252_PRIME value); [lia | reflexivity].
Qed.

(** Out of range, the validator converts the value and then prints. *)
Lemma validate_felt252_out_of_range (value : Z) (name : string) :
  ~ in_felt252_range value ->
  validate_felt252 value name =
  (s <- str value ;;
   eprint ("WARNING: " ++ name ++ " = " ++ s ++ " exceeds felt252 range!")).
Proof.
  unfold in_felt252_range, validate_felt252, Py.abs. intros H.
  pose proof FELT252_PRIME_pos as HP.
  rewrite !Z.geb_leb.
  destruct (Z.ltb_spec value 0).
  - destruct (Z.leb_spec FELT252_PRIME (Z.abs value)); [reflexivity | lia].
  - destruct (Z.leb_spec FELT252_PRIME value); [reflexivity | lia].
Qed.

Lemma warn_nonempty_iff (value : Z) (name : string) :
  warn value name <> [] <-> value <= - FELT252_PRIME \/ FELT252_PRIME <= value.
Proof.
  unfold warn.
  destruct (Z.leb_spec value (- FELT252_PRIME));
    destruct (Z.leb_spec FELT252_PRIME value); cbn [orb];
    split; intros H'; try lia; try discriminate; try (exfalso; apply H'; reflexivity).
Qed.

Lemma warn_empty_iff (value : Z) (name : string) :
  warn value name = [] <-> in_felt252_range value.
Proof.
  unfold warn, in_felt252_range.
  destruct (Z.leb_spec value (- FELT252_PRIME));
    destruct (Z.leb_spec FELT252_PRIME value); cbn [orb];
    split; intros H'; try lia; try discriminate; reflexivity.
Qed.

Lemma warn_out_of_range (value : Z) (name : string) :
  ~ in_felt252_range value ->
  warn value name =
  [Stderr ("WARNING: " ++ name ++ " = " ++ decimal value ++ " exceeds felt252 range!")].
Proof.
  unfold warn, in_felt252_range. intros H.
  destruct (Z.leb_spec value (- FELT252_PRIME));
    destruct (Z.leb_spec FELT252_PRIME value); cbn [orb]; try reflexivity; lia.
Qed.

Lemma in_felt252_range_dec (value : Z) :
  {in_felt252_range value} + {~ in_felt252_range value}.
Proof.
  unfold in_felt252_range.
  destruct (Z_le_dec (- (FELT252_PRIME - 1)) value);
    destruct (Z_le_dec value (FELT252_PRIME - 1)); [left | right | right | right]; lia.
Qed.

(** For a value that [str] can convert the validator returns, having written
    its warning, if any. *)
Lemma validate_felt252_eq (value : Z) (name : string) :
  renders value -> validate_felt252 value name = (warn value name, Returned tt).
Proof.
  intros Hr. destruct (in_felt252_range_dec value) as [Hin | Hout].
  - rewrite (validate_felt252_in_range value name Hin).
    rewrite (proj2 (warn_empty_iff value name) Hin). reflexivity.
  - rewrite (validate_felt252_out_of_range value name Hout).
    rewrite (str_renders value Hr), bind_ret_l.
    rewrite (warn_out_of_range value name Hout). reflexivity.
Qed.

(** For a value with too many digits the conversion inside the f-string
    raises before anything is printed. *)
Lemma validate_felt252_too_long (value : Z) (name : string) :
  ~ renders value -> validate_felt252 value name = raise ValueError.
Proof.
  intros Hn.
  assert (Hout : ~ in_felt252_range value)
    by (intros Hin; apply Hn, in_felt252_range_renders, Hin).
  rewrite (validate_felt252_out_of_range value name Hout).
  rewrite (str_too_long value Hn). reflexivity.
Qed.

Lemma validate_felt252_returned_inv (value : Z) (name : string) (u : unit) :
  snd (validate_felt252 value name) = Returned u -> renders value.
Proof.
  intros H. destruct (renders_dec value) as [Hr | Hn]; [exact Hr |].
  rewrite (validate_felt252_too_long value name Hn) in H. discriminate H.
Qed.

(** *** min and max of a list *)

Lemma fold_min_spec (xs : list Z) (x : Z) :
  let m := fold_left (fun m y => if y <? m then y else m) xs x in
  In m (x :: xs) /\ forall c, In c (x :: xs) -> m <= c.
Proof.
  revert x. induction xs as [| y ys IH]; intros x; cbn [fold_left].
  - split; [left; reflexivity |].
    intros c [<- | []]. lia.
  - specialize (IH (if y <? x then y else x)). cbv zeta in IH.
    destruct IH as [Hin Hle]. split.
    + destruct Hin as [Heq | Hin].
      * rewrite <- Heq. destruct (y <? x); [right; left | left]; reflexivity.
      * right; right; exact Hin.
    + intros c [<- | [<- | Hc]].
      * etransitivity; [apply Hle; left; reflexivity |].
        destruct (Z.ltb_spec y x); lia.
      * etransitivity; [apply Hle; left; reflexivity |].
        destruct (Z.ltb_spec y x); lia.
      * apply Hle. right; exact Hc.
Qed.

Lemma fold_max_spec (xs : list Z) (x : Z) :
  let m := fold_left (fun m y => if m <? y then y else m) xs x in
  In m (x :: xs) /\ forall c, In c (x :: xs) -> c <= m.
Proof.
  revert x. induction xs as [| y ys IH]; intros x; cbn [fold_left].
  - split; [left; reflexivity |].
    intros c [<- | []]. lia.
  - specialize (IH (if x <? y then y else x)). cbv zeta in IH.
    destruct IH as [Hin Hle]. split.
    + destruct Hin as [Heq | Hin].
      * rewrite <- Heq. destruct (x <? y); [right; left | left]; reflexivity.
      * right; right; exact Hin.
    + intros c [<- | [<- | Hc]].
      * etransitivity; [| apply Hle; left; reflexivity].
        destruct (Z.ltb_spec x y); lia.
      * etransitivity; [| apply Hle; left; reflexivity].
        destruct (Z.ltb_spec x y); lia.
      * apply Hle. right; exact Hc.
Qed.

Lemma min_nonempty (x : Z) (xs : list Z) :
  exists m, Py.min (x :: xs) = ret m /\ In m (x :: xs) /\ forall c, In c (x :: xs) -> m <= c.
Proof. eexists. split; [reflexivity | apply fold_min_spec]. Qed.

Lemma max_nonempty (x : Z) (xs : list Z) :
  exists m, Py.max (x :: xs) = ret m /\ In m (x :: xs) /\ forall c, In c (x :: xs) -> c <= m.
Proof. eexists. split; [reflexivity | apply fold_max_spec]. Qed.

Lemma calc_mul_returns (a_lo a_hi b_lo b_hi : Z) :
  exists lo hi,
    calc_mul a_lo a_hi b_lo b_hi = ret (lo, hi) /\
    In lo (corner_products a_lo a_hi b_lo b_hi) /\
    (forall c, In c (corner_products a_lo a_hi b_lo b_hi) -> lo <= c) /\
    In hi (corner_products a_lo a_hi b_lo b_hi) /\
    (forall c, In c (corner_products a_lo a_hi b_lo b_hi) -> c <= hi).
Proof.
  unfold calc_mul, corner_products.
  destruct (min_nonempty (a_lo * b_lo) [a_lo * b_hi; a_hi * b_lo; a_hi * b_hi])
    as (lo & Hmin & Hlo_in & Hlo_le).
  destruct (max_nonempty (a_lo * b_lo) [a_lo * b_hi; a_hi * b_lo; a_hi * b_hi])
    as (hi & Hmax & Hhi_in & Hhi_le).
  exists lo, hi. rewrite Hmin, bind_ret_l, Hmax, bind_ret_l.
  repeat split; assumption.
Qed.

(** *** The four ways [calc_div] can end *)

Lemma floordiv_nonzero (a b : Z) : b <> 0 -> floordiv a b = ret (a / b).
Proof.
  intros Hb. unfold floordiv. destruct (Z.eqb_spec b 0); [contradiction | reflexivity].
Qed.

Lemma floordiv_zero (a : Z) : floordiv a 0 = raise ZeroDivisionError.
Proof. reflexivity. Qed.

Lemma calc_div_divisor_not_positive (a_lo a_hi b_lo b_hi : Z) :
  b_lo <= 0 ->
  calc_div a_lo a_hi b_lo b_hi =
    ([Stderr "ERROR: Divisor lower bound must be positive!"], Exited 1).
Proof.
  intros Hb. unfold calc_div.
  destruct (Z.leb_spec b_lo 0); [reflexivity | lia].
Qed.

Lemma calc_div_dividend_negative (a_lo a_hi b_lo b_hi : Z) :
  0 < b_lo -> a_lo < 0 ->
  calc_div a_lo a_hi b_lo b_hi =
    ([Stderr "ERROR: Dividend lower bound must be non-negative! Cairo's bounded_int_div_rem does not support negative dividends."],
     Exited 1).
Proof.
  intros Hb Ha. unfold calc_div.
  destruct (Z.leb_spec b_lo 0); [lia |].
  destruct (Z.ltb_spec a_lo 0); [reflexivity | lia].
Qed.

Lemma calc_div_returns (a_lo a_hi b_lo b_hi : Z) :
  0 < b_lo -> 0 <= a_lo -> b_hi <> 0 ->
  calc_div a_lo a_hi b_lo b_hi = ret ((a_lo / b_hi, a_hi / b_lo), (0, b_hi - 1)).
Proof.
  intros Hb Ha Hhi. unfold calc_div.
  destruct (Z.leb_spec b_lo 0); [lia |].
  destruct (Z.ltb_spec a_lo 0); [lia |].
  rewrite !bind_ret_l.
  rewrite (floordiv_nonzero a_lo b_hi) by assumption.
  rewrite (floordiv_nonzero a_hi b_lo) by lia.
  rewrite !bind_ret_l. reflexivity.
Qed.

Lemma calc_div_zero_upper_bound (a_lo a_hi b_lo : Z) :
  0 < b_lo -> 0 <= a_lo ->
  calc_div a_lo a_hi b_lo 0 = raise ZeroDivisionError.
Proof.
  intros Hb Ha. unfold calc_div.
  destruct (Z.leb_spec b_lo 0); [lia |].
  destruct (Z.ltb_spec a_lo 0); [lia |].
  reflexivity.
Qed.

(** *** Traces *)

Lemma silent_nil : silent [].
Proof. constructor. Qed.

Lemma silent_warn (value : Z) (name : string) : silent (warn value name).
Proof.
  unfold silent, warn. destruct (_ || _); repeat constructor. eexists; reflexivity.
Qed.

Lemma silent_app (w1 w2 : list event) : silent w1 -> silent w2 -> silent (w1 ++ w2).
Proof. unfold silent. intros H1 H2. apply Forall_app. split; assumption. Qed.

Lemma silent_stdout (w : list event) : silent w -> filter is_stdout w = [].
Proof.
  induction 1 as [| e w (line & ->) _ IH]; [reflexivity |].
  cbn. exact IH.
Qed.

Lemma silent_stderr (w : list event) :
  silent w -> filter (fun e => negb (is_stdout e)) w = w.
Proof.
  induction 1 as [| e w (line & ->) _ IH]; [reflexivity |].
  cbn. rewrite IH. reflexivity.
Qed.

Lemma silent_no_traceback (w : list event) (e : exn) : silent w -> ~ In (Traceback e) w.
Proof.
  intros Hw Hin. unfold silent in Hw. rewrite Forall_forall in Hw.
  destruct (Hw _ Hin) as (line & Heq). discriminate Heq.
Qed.

Create HintDb io.
#[local] Hint Resolve silent_nil silent_warn silent_app : io.

Lemma app_empty_iff {A : Type} (l1 l2 : list A) : l1 ++ l2 = [] <-> l1 = [] /\ l2 = [].
Proof.
  split.
  - apply app_eq_nil.
  - intros (-> & ->). reflexivity.
Qed.

(** *** Computations that only warn *)

Lemma quiet_ret {A : Type} (a : A) : quiet (ret a).
Proof. split; [apply silent_nil | right; exists a; reflexivity]. Qed.

Lemma quiet_bind {A B : Type} (m : IO A) (f : A -> IO B) :
  quiet m -> (forall a, quiet (f a)) -> quiet (bind m f).
Proof.
  destruct m as [t [a | c | e]]; intros (Ht & Hm) Hf; cbn [fst snd] in *.
  - rewrite bind_returned. destruct (Hf a) as (Hs & Ho).
    split; [apply silent_app; assumption | exact Ho].
  - destruct Hm as [Hm | (a & Hm)]; discriminate Hm.
  - rewrite bind_raised. split; [exact Ht |].
    destruct Hm as [Hm | (a & Hm)]; [| discriminate Hm].
    left. cbn [snd]. congruence.
Qed.

Lemma quiet_validate_felt252 (value : Z) (name : string) :
  quiet (validate_felt252 value name).
Proof.
  destruct (renders_dec value) as [Hr | Hn].
  - rewrite (validate_felt252_eq value name Hr).
    split; [apply silent_warn | right; exists tt; reflexivity].
  - rewrite (validate_felt252_too_long value name Hn).
    split; [apply silent_nil | left; reflexivity].
Qed.

Lemma quiet_format_bound (value : Z) : quiet (format_bound value).
Proof.
  destruct (renders_dec value) as [Hr | Hn].
  - rewrite (format_bound_renders value Hr). apply quiet_ret.
  - rewrite (format_bound_too_long value Hn).
    split; [apply silent_nil | left; reflexivity].
Qed.

(** From what a renderer does when every value converts, and from which values
    have converted when it returns, to the two ways it can end. *)
Lemma quiet_cases (g : IO string) (vals : list Z) (w0 : list event) :
  quiet g ->
  (Forall renders vals -> exists s, g = (w0, Returned s)) ->
  (forall s, snd g = Returned s -> Forall renders vals) ->
  (Forall renders vals /\ exists s, g = (w0, Returned s)) \/
  (~ Forall renders vals /\ exists w, silent w /\ g = (w, Raised ValueError)).
Proof.
  intros (Hs & Ho) Hret Hinv.
  destruct (Forall_dec renders renders_dec vals) as [Hall | Hnot].
  - left. split; [exact Hall | exact (Hret Hall)].
  - right. split; [exact Hnot |].
    destruct Ho as [Ho | (s & Ho)].
    + exists (fst g). split; [exact Hs |].
      destruct g as [w o]. cbn [fst snd] in *. rewrite Ho. reflexivity.
    + exfalso. exact (Hnot (Hinv s Ho)).
Qed.

(** *** The renderers *)

(** The steps of a renderer whose values all convert. *)
Ltac run_steps :=
  repeat first
    [ rewrite validate_felt252_eq by assumption; rewrite bind_returned;
      cbv beta; cbn [fst snd]
    | rewrite format_bound_renders by assumption; rewrite bind_ret_l; cbv beta ].

(** The steps of a renderer that returned, read backwards. *)
Ltac returned_steps H :=
  repeat
    (apply bind_returned_inv in H;
     let x := fresh "x" in
     let Hx := fresh "Hstep" in
     destruct H as (x & Hx & H);
     first [ apply validate_felt252_returned_inv in Hx
           | apply format_bound_returned_inv in Hx ];
     cbv beta in H).

Ltac quiet_steps :=
  repeat (apply quiet_bind;
          [ first [ apply quiet_validate_felt252 | apply quiet_format_bound ]
          | intros ? ]);
  apply quiet_ret.

Lemma all_render_6 (v1 v2 v3 v4 v5 v6 : Z) :
  Forall renders [v1; v2; v3; v4; v5; v6] ->
  renders v1 /\ renders v2 /\ renders v3 /\ renders v4 /\ renders v5 /\ renders v6.
Proof.
  intros H. repeat (apply Forall_cons_iff in H; destruct H as (? & H)).
  repeat split; assumption.
Qed.

Lemma all_render_8 (v1 v2 v3 v4 v5 v6 v7 v8 : Z) :
  Forall renders [v1; v2; v3; v4; v5; v6; v7; v8] ->
  renders v1 /\ renders v2 /\ renders v3 /\ renders v4 /\
  renders v5 /\ renders v6 /\ renders v7 /\ renders v8.
Proof.
  intros H. repeat (apply Forall_cons_iff in H; destruct H as (? & H)).
  repeat split; assumption.
Qed.

Lemma generate_add_impl_cases (a_lo a_hi b_lo b_hi : Z) (name : string) :
  (Forall renders [a_lo; a_hi; b_lo; b_hi; a_lo + b_lo; a_hi + b_hi] /\
   exists s, generate_add_impl a_lo a_hi b_lo b_hi name =
             (warn (a_lo + b_lo) "Result min" ++ warn (a_hi + b_hi) "Result max",
              Returned s)) \/
  (~ Forall renders [a_lo; a_hi; b_lo; b_hi; a_lo + b_lo; a_hi + b_hi] /\
   exists w, silent w /\
             generate_add_impl a_lo a_hi b_lo b_hi name = (w, Raised ValueError)).
Proof.
  apply quiet_cases.
  - unfold generate_add_impl, calc_add. cbv zeta. quiet_steps.
  - intros Hall. apply all_render_6 in Hall.
    destruct Hall as (? & ? & ? & ? & ? & ?).
    unfold generate_add_impl, calc_add. cbv zeta. run_steps.
    cbn [ret fst snd]. rewrite app_nil_r. eexists. reflexivity.
  - intros s H. unfold generate_add_impl, calc_add in H. cbv zeta in H.
    returned_steps H. repeat constructor; assumption.
Qed.

Lemma generate_sub_impl_cases (a_lo a_hi b_lo b_hi : Z) (name : string) :
  (Forall renders [a_lo; a_hi; b_lo; b_hi; a_lo - b_hi; a_hi - b_lo] /\
   exists s, generate_sub_impl a_lo a_hi b_lo b_hi name =
             (warn (a_lo - b_hi) "Result min" ++ warn (a_hi - b_lo) "Result max",
              Returned s)) \/
  (~ Forall renders [a_lo; a_hi; b_lo; b_hi; a_lo - b_hi; a_hi - b_lo] /\
   exists w, silent w /\
             generate_sub_impl a_lo a_hi b_lo b_hi name = (w, Raised ValueError)).
Proof.
  apply quiet_cases.
  - unfold generate_sub_impl, calc_sub. cbv zeta. quiet_steps.
  - intros Hall. apply all_render_6 in Hall.
    destruct Hall as (? & ? & ? & ? & ? & ?).
    unfold generate_sub_impl, calc_sub. cbv zeta. run_steps.
    cbn [ret fst snd]. rewrite app_nil_r. eexists. reflexivity.
  - intros s H. unfold generate_sub_impl, calc_sub in H. cbv zeta in H.
    returned_steps H. repeat constructor; assumption.
Qed.

Lemma generate_mul_impl_cases (a_lo a_hi b_lo b_hi lo hi : Z) (name : string) :
  calc_mul a_lo a_hi b_lo b_hi = ret (lo, hi) ->
  (Forall renders [a_lo; a_hi; b_lo; b_hi; lo; hi] /\
   exists s, generate_mul_impl a_lo a_hi b_lo b_hi name =
             (warn lo "Result min" ++ warn hi "Result max", Returned s)) \/
  (~ Forall renders [a_lo; a_hi; b_lo; b_hi; lo; hi] /\
   exists w, silent w /\
             generate_mul_impl a_lo a_hi b_lo b_hi name = (w, Raised ValueError)).
Proof.
  intros Hmul. apply quiet_cases.
  - unfold generate_mul_impl. rewrite Hmul, bind_ret_l. quiet_steps.
  - intros Hall. apply all_render_6 in Hall.
    destruct Hall as (? & ? & ? & ? & ? & ?).
    unfold generate_mul_impl. rewrite Hmul, bind_ret_l. run_steps.
    cbn [ret fst snd]. rewrite app_nil_r. eexists. reflexivity.
  - intros s H. unfold generate_mul_impl in H. rewrite Hmul, bind_ret_l in H.
    returned_steps H. repeat constructor; assumption.
Qed.

Lemma generate_div_impl_cases (a_lo a_hi b_lo b_hi : Z) (name : string) :
  0 < b_lo -> 0 <= a_lo -> b_hi <> 0 ->
  (Forall renders [a_lo; a_hi; b_lo; b_hi; a_lo / b_hi; a_hi / b_lo; 0; b_hi - 1] /\
   exists s, generate_div_impl a_lo a_hi b_lo b_hi name =
             (warn (a_lo / b_hi) "Quotient min" ++ warn (a_hi / b_lo) "Quotient max" ++
              warn 0 "Remainder min" ++ warn (b_hi - 1) "Remainder max",
              Returned s)) \/
  (~ Forall renders [a_lo; a_hi; b_lo; b_hi; a_lo / b_hi; a_hi / b_lo; 0; b_hi - 1] /\
   exists w, silent w /\
             generate_div_impl a_lo a_hi b_lo b_hi name = (w, Raised ValueError)).
Proof.
  intros Hb Ha Hhi. apply quiet_cases.
  - unfold generate_div_impl. rewrite calc_div_returns by assumption.
    rewrite bind_ret_l. quiet_steps.
  - intros Hall. apply all_render_8 in Hall.
    destruct Hall as (? & ? & ? & ? & ? & ? & ? & ?).
    unfold generate_div_impl. rewrite calc_div_returns by assumption.
    rewrite bind_ret_l. run_steps.
    cbn [ret fst snd]. rewrite app_nil_r. eexists. reflexivity.
  - intros s H. unfold generate_div_impl in H.
    rewrite calc_div_returns in H by assumption. rewrite bind_ret_l in H.
    returned_steps H. repeat constructor; assumption.
Qed.

(** *** The renderer of each subcommand and [main] *)

Lemma warns2_empty_iff (v1 v2 : Z) (n1 n2 : string) :
  warn v1 n1 ++ warn v2 n2 = [] <-> Forall in_felt252_range [v1; v2].
Proof.
  rewrite app_empty_iff, !warn_empty_iff. split.
  - intros (H1 & H2). repeat (apply Forall_cons; [assumption |]). apply Forall_nil.
  - intros H. apply Forall_cons_iff in H. destruct H as (H1 & H).
    apply Forall_cons_iff in H. destruct H as (H2 & _). split; assumption.
Qed.

Lemma warns4_empty_iff (v1 v2 v3 v4 : Z) (n1 n2 n3 n4 : string) :
  warn v1 n1 ++ warn v2 n2 ++ warn v3 n3 ++ warn v4 n4 = [] <->
  Forall in_felt252_range [v1; v2; v3; v4].
Proof.
  rewrite !app_empty_iff, !warn_empty_iff. split.
  - intros (H1 & H2 & H3 & H4). repeat (apply Forall_cons; [assumption |]). apply Forall_nil.
  - intros H. repeat (apply Forall_cons_iff in H; destruct H as (? & H)).
    repeat (split; [assumption |]). assumption.
Qed.

(** The ways the renderer of a subcommand can end: with the declaration,
    after the warnings for the computed bounds; with [ValueError], when a
    bound has too many digits to be converted; for division, with one of
    the two error exits of [calc_div] or with its [ZeroDivisionError]. *)
Lemma generate_impl_cases (op : Operation) (a_lo a_hi b_lo b_hi : Z) (name : string) :
  (exists bs w s,
      result_bounds op a_lo a_hi b_lo b_hi = ret bs /\
      Forall renders ([a_lo; a_hi; b_lo; b_hi] ++ bs) /\
      silent w /\ (w = [] <-> Forall in_felt252_range bs) /\
      generate_impl op a_lo a_hi b_lo b_hi name = (w, Returned s)) \/
  (exists bs w,
      result_bounds op a_lo a_hi b_lo b_hi = ret bs /\
      ~ Forall renders ([a_lo; a_hi; b_lo; b_hi] ++ bs) /\
      silent w /\
      generate_impl op a_lo a_hi b_lo b_hi name = (w, Raised ValueError)) \/
  (op = Div /\ b_lo <= 0 /\
   generate_impl op a_lo a_hi b_lo b_hi name =
     ([Stderr "ERROR: Divisor lower bound must be positive!"], Exited 1)) \/
  (op = Div /\ 0 < b_lo /\ a_lo < 0 /\
   generate_impl op a_lo a_hi b_lo b_hi name =
     ([Stderr "ERROR: Dividend lower bound must be non-negative! Cairo's bounded_int_div_rem does not support negative dividends."],
      Exited 1)) \/
  (op = Div /\ 0 < b_lo /\ 0 <= a_lo /\ b_hi = 0 /\
   generate_impl op a_lo a_hi b_lo b_hi name = ([], Raised ZeroDivisionError)).
Proof.
  destruct op; cbn [generate_impl result_bounds].
  - destruct (generate_add_impl_cases a_lo a_hi b_lo b_hi name)
      as [(Hall & s & Hg) | (Hn & w & Hw & Hg)].
    + left. do 3 eexists. split; [reflexivity |]. split; [exact Hall |].
      split; [| split; [apply warns2_empty_iff | exact Hg]]. auto with io.
    + right; left. do 2 eexists. split; [reflexivity |].
      split; [exact Hn |]. split; [exact Hw | exact Hg].
  - destruct (generate_sub_impl_cases a_lo a_hi b_lo b_hi name)
      as [(Hall & s & Hg) | (Hn & w & Hw & Hg)].
    + left. do 3 eexists. split; [reflexivity |]. split; [exact Hall |].
      split; [| split; [apply warns2_empty_iff | exact Hg]]. auto with io.
    + right; left. do 2 eexists. split; [reflexivity |].
      split; [exact Hn |]. split; [exact Hw | exact Hg].
  - destruct (calc_mul_returns a_lo a_hi b_lo b_hi) as (lo & hi & Hmul & _).
    rewrite Hmul, bind_ret_l.
    destruct (generate_mul_impl_cases a_lo a_hi b_lo b_hi lo hi name Hmul)
      as [(Hall & s & Hg) | (Hn & w & Hw & Hg)].
    + left. do 3 eexists. split; [reflexivity |]. split; [exact Hall |].
      split; [| split; [apply warns2_empty_iff | exact Hg]]. auto with io.
    + right; left. do 2 eexists. split; [reflexivity |].
      split; [exact Hn |]. split; [exact Hw | exact Hg].
  - destruct (Z.leb_spec b_lo 0) as [Hb | Hb].
    { right; right; left. split; [reflexivity |]. split; [exact Hb |].
      unfold generate_div_impl.
      rewrite calc_div_divisor_not_positive by assumption. reflexivity. }
    destruct (Z.ltb_spec a_lo 0) as [Ha | Ha].
    { right; right; right; left. split; [reflexivity |]. do 2 (split; [assumption |]).
      unfold generate_div_impl.
      rewrite calc_div_dividend_negative by assumption. reflexivity. }
    destruct (Z.eq_dec b_hi 0) as [Hhi | Hhi].
    { right; right; right; right. split; [reflexivity |]. do 3 (split; [assumption |]).
      subst b_hi. unfold generate_div_impl.
      rewrite calc_div_zero_upper_bound by assumption. reflexivity. }
    rewrite calc_div_returns by assumption. rewrite bind_ret_l.
    destruct (generate_div_impl_cases a_lo a_hi b_lo b_hi name Hb Ha Hhi)
      as [(Hall & s & Hg) | (Hn & w & Hw & Hg)].
    + left. do 3 eexists. split; [reflexivity |]. split; [exact Hall |].
      split; [| split; [apply warns4_empty_iff | exact Hg]]. auto 10 with io.
    + right; left. do 2 eexists. split; [reflexivity |].
      split; [exact Hn |]. split; [exact Hw | exact Hg].
Qed.

(** The result bounds of a division exist only past both checks and with a
    non-zero upper bound of the divisor. *)
Lemma result_bounds_div_inv (a_lo a_hi b_lo b_hi : Z) (bs : list Z) :
  result_bounds Div a_lo a_hi b_lo b_hi = ret bs ->
  0 < b_lo /\ 0 <= a_lo /\ b_hi <> 0 /\
  bs = [a_lo / b_hi; a_hi / b_lo; 0; b_hi - 1].
Proof.
  cbn [result_bounds]. intros H.
  destruct (Z.leb_spec b_lo 0) as [Hb | Hb].
  { rewrite calc_div_divisor_not_positive in H by assumption. discriminate H. }
  destruct (Z.ltb_spec a_lo 0) as [Ha | Ha].
  { rewrite calc_div_dividend_negative in H by assumption. discriminate H. }
  destruct (Z.eq_dec b_hi 0) as [Hhi | Hhi].
  { subst b_hi. rewrite calc_div_zero_upper_bound in H by assumption. discriminate H. }
  rewrite calc_div_returns in H by assumption. rewrite bind_ret_l in H.
  injection H as <-. repeat split; assumption.
Qed.

Lemma main_eq (op : Operation) (a_lo a_hi b_lo b_hi : Z) (name : string) :
  main (MkArgs op a_lo a_hi b_lo b_hi name) =
  (s <- generate_impl op a_lo a_hi b_lo b_hi name ;; print s).
Proof. destruct op; reflexivity. Qed.

Lemma run_main_returned (op : Operation) (a_lo a_hi b_lo b_hi : Z) (name : string)
      (w : list event) (s : string) :
  generate_impl op a_lo a_hi b_lo b_hi name = (w, Returned s) ->
  run (main (MkArgs op a_lo a_hi b_lo b_hi name)) = Process (w ++ [Stdout s]) 0.
Proof. intros H. rewrite main_eq, H. reflexivity. Qed.

Lemma run_main_exited (op : Operation) (a_lo a_hi b_lo b_hi : Z) (name : string)
      (w : list event) (c : Z) :
  generate_impl op a_lo a_hi b_lo b_hi name = (w, Exited c) ->
  run (main (MkArgs op a_lo a_hi b_lo b_hi name)) = Process w c.
Proof. intros H. rewrite main_eq, H. reflexivity. Qed.

Lemma run_main_raised (op : Operation) (a_lo a_hi b_lo b_hi : Z) (name : string)
      (w : list event) (e : exn) :
  generate_impl op a_lo a_hi b_lo b_hi name = (w, Raised e) ->
  run (main (MkArgs op a_lo a_hi b_lo b_hi name)) = Process (w ++ [Traceback e]) 1.
Proof. intros H. rewrite main_eq, H. reflexivity. Qed.

(** The five ways a run can end, with what was written in each. *)
Lemma run_main_cases (op : Operation) (a_lo a_hi b_lo b_hi : Z) (name : string) :
  (exists bs w s,
      result_bounds op a_lo a_hi b_lo b_hi = ret bs /\
      Forall renders ([a_lo; a_hi; b_lo; b_hi] ++ bs) /\
      silent w /\ (w = [] <-> Forall in_felt252_range bs) /\
      generate_impl op a_lo a_hi b_lo b_hi name = (w, Returned s) /\
      run (main (MkArgs op a_lo a_hi b_lo b_hi name)) = Process (w ++ [Stdout s]) 0) \/
  (exists bs w,
      result_bounds op a_lo a_hi b_lo b_hi = ret bs /\
      ~ Forall renders ([a_lo; a_hi; b_lo; b_hi] ++ bs) /\
      silent w /\
      run (main (MkArgs op a_lo a_hi b_lo b_hi name)) =
        Process (w ++ [Traceback ValueError]) 1) \/
  (op = Div /\ b_lo <= 0 /\
   run (main (MkArgs op a_lo a_hi b_lo b_hi name)) =
     Process [Stderr "ERROR: Divisor lower bound must be positive!"] 1) \/
  (op = Div /\ 0 < b_lo /\ a_lo < 0 /\
   run (main (MkArgs op a_lo a_hi b_lo b_hi name)) =
     Process [Stderr "ERROR: Dividend lower bound must be non-negative! Cairo's bounded_int_div_rem does not support negative dividends."] 1) \/
  (op = Div /\ 0 < b_lo /\ 0 <= a_lo /\ b_hi = 0 /\
   run (main (MkArgs op a_lo a_hi b_lo b_hi name)) =
     Process [Traceback ZeroDivisionError] 1).
Proof.
  destruct (generate_impl_cases op a_lo a_hi b_lo b_hi name)
    as [(bs & w & s & Hbs & Hall & Hw & Hiff & Hg)
       | [(bs & w & Hbs & Hn & Hw & Hg)
         | [(Hop & Hb & Hg) | [(Hop & Hb & Ha & Hg) | (Hop & Hb & Ha & Hhi & Hg)]]]].
  - left. exists bs, w, s. repeat (split; [assumption |]).
    apply run_main_returned. exact Hg.
  - right; left. exists bs, w. repeat (split; [assumption |]).
    apply run_main_raised. exact Hg.
  - right; right; left. repeat (split; [assumption |]).
    apply run_main_exited. exact Hg.
  - right; right; right; left. repeat (split; [assumption |]).
    apply run_main_exited. exact Hg.
  - right; right; right; right. repeat (split; [assumption |]).
    rewrite (run_main_raised _ _ _ _ _ _ _ _ Hg). reflexivity.
Qed.

(** What an observer sees of a run that printed its declaration, and of one
    that ended in an uncaught exception after warnings only. *)
Lemma printed_observed (w : list event) (s : string) :
  silent w ->
  stdout (Process (w ++ [Stdout s]) 0) = [Stdout s] /\
  stderr (Process (w ++ [Stdout s]) 0) = w.
Proof.
  intros Hw. unfold stdout, stderr. cbn [trace].
  rewrite !filter_app, (silent_stdout w Hw), (silent_stderr w Hw).
  cbn. rewrite app_nil_r. split; reflexivity.
Qed.

Lemma crashed_observed (w : list event) (e : exn) :
  silent w ->
  stdout (Process (w ++ [Traceback e]) 1) = [] /\
  stderr (Process (w ++ [Traceback e]) 1) = w ++ [Traceback e].
Proof.
  intros Hw. unfold stdout, stderr. cbn [trace].
  rewrite !filter_app, (silent_stdout w Hw), (silent_stderr w Hw).
  cbn. split; reflexivity.
Qed.

(* ===================================================================== *)
(** ** Addition and subtraction *)
(* ===================================================================== *)

(** C7: for every pair of intervals (a_lo,a_hi) and (b_lo,b_hi), addition
    returns the interval (a_lo + b_lo, a_hi + b_hi). *)
Theorem calc_add_bounds (a_lo a_hi b_lo b_hi : Z) :
  calc_add a_lo a_hi b_lo b_hi = (a_lo + b_lo, a_hi + b_hi).
Proof. reflexivity. Qed.

(** C8: for every pair of intervals (a_lo,a_hi) and (b_lo,b_hi), subtraction
    returns the interval (a_lo - b_hi, a_hi - b_lo). *)
Theorem calc_sub_bounds (a_lo a_hi b_lo b_hi : Z) :
  calc_sub a_lo a_hi b_lo b_hi = (a_lo - b_hi, a_hi - b_lo).
Proof. reflexivity. Qed.

(** C9: for every pair of intervals A and B, Add(A,B) equals Sub(A, Neg(B)),
    where Neg(B) is the interval (-B.hi, -B.lo). *)
Theorem calc_add_is_sub_of_Neg (a_lo a_hi b_lo b_hi : Z) :
  calc_add a_lo a_hi b_lo b_hi =
  calc_sub a_lo a_hi (fst (Neg (b_lo, b_hi))) (snd (Neg (b_lo, b_hi))).
Proof.
  unfold calc_add, calc_sub, Neg. cbn [fst snd].
  f_equal; lia.
Qed.

Example scenario_add : calc_add 0 12288 0 12288 = (0, 24576).
Proof. reflexivity. Qed.

Example scenario_sub : calc_sub 0 12288 0 12288 = (-12288, 12288).
Proof. reflexivity. Qed.

(* ===================================================================== *)
(** ** Multiplication *)
(* ===================================================================== *)

(** C2: for every pair of intervals, multiplication returns the interval whose
    lower bound is the minimum and whose upper bound is the maximum of the four
    corner products: each bound is one of the corners, the lower bound is below
    every corner and the upper bound is above every corner. *)
Theorem calc_mul_corners (a_lo a_hi b_lo b_hi : Z) :
  exists lo hi,
    calc_mul a_lo a_hi b_lo b_hi = ret (lo, hi) /\
    In lo (corner_products a_lo a_hi b_lo b_hi) /\
    (forall c, In c (corner_products a_lo a_hi b_lo b_hi) -> lo <= c) /\
    In hi (corner_products a_lo a_hi b_lo b_hi) /\
    (forall c, In c (corner_products a_lo a_hi b_lo b_hi) -> c <= hi).
Proof. apply calc_mul_returns. Qed.

(** The same bounds written with the binary minimum and maximum. *)
Lemma calc_mul_min_max (a_lo a_hi b_lo b_hi : Z) :
  calc_mul a_lo a_hi b_lo b_hi =
  ret (Z.min (Z.min (a_lo * b_lo) (a_lo * b_hi)) (Z.min (a_hi * b_lo) (a_hi * b_hi)),
       Z.max (Z.max (a_lo * b_lo) (a_lo * b_hi)) (Z.max (a_hi * b_lo) (a_hi * b_hi))).
Proof.
  destruct (calc_mul_returns a_lo a_hi b_lo b_hi)
    as (lo & hi & -> & Hlo_in & Hlo_le & Hhi_in & Hhi_le).
  unfold corner_products in *.
  set (c1 := a_lo * b_lo) in *. set (c2 := a_lo * b_hi) in *.
  set (c3 := a_hi * b_lo) in *. set (c4 := a_hi * b_hi) in *.
  clearbody c1 c2 c3 c4.
  assert (H1 := Hlo_le c1 ltac:(simpl; tauto)).
  assert (H2 := Hlo_le c2 ltac:(simpl; tauto)).
  assert (H3 := Hlo_le c3 ltac:(simpl; tauto)).
  assert (H4 := Hlo_le c4 ltac:(simpl; tauto)).
  assert (G1 := Hhi_le c1 ltac:(simpl; tauto)).
  assert (G2 := Hhi_le c2 ltac:(simpl; tauto)).
  assert (G3 := Hhi_le c3 ltac:(simpl; tauto)).
  assert (G4 := Hhi_le c4 ltac:(simpl; tauto)).
  clear Hlo_le Hhi_le.
  cbn [In] in Hlo_in, Hhi_in.
  assert (Elo : lo = Z.min (Z.min c1 c2) (Z.min c3 c4)) by lia.
  assert (Ehi : hi = Z.max (Z.max c1 c2) (Z.max c3 c4)) by lia.
  congruence.
Qed.

(** C3, as the code computes it: multiplying [0,12288] by [0,12288] returns
    the interval [0,150994944], the upper bound being 12288 * 12288. *)
Theorem calc_mul_scenario : calc_mul 0 12288 0 12288 = ret (0, 150994944).
Proof. reflexivity. Qed.

(** C3, as the claim states it, fails: the result is not [0,151011072]. *)
Lemma calc_mul_scenario_not_151011072 :
  calc_mul 0 12288 0 12288 <> ret (0, 151011072).
Proof. vm_compute. discriminate. Qed.

(* ===================================================================== *)
(** ** Division with remainder *)
(* ===================================================================== *)

(** C1: for every pair of intervals (a_lo,a_hi) and (b_lo,b_hi) with b_lo > 0
    and a_lo >= 0, division returns the quotient interval
    (floor(a_lo / b_hi), floor(a_hi / b_lo)) and the remainder interval
    (0, b_hi - 1), and writes nothing.  An interval has its lower bound not
    above its upper bound; of this only b_lo <= b_hi is used. *)
Theorem calc_div_bounds (a_lo a_hi b_lo b_hi : Z) :
  0 < b_lo -> 0 <= a_lo -> b_lo <= b_hi ->
  calc_div a_lo a_hi b_lo b_hi = ret ((a_lo / b_hi, a_hi / b_lo), (0, b_hi - 1)).
Proof.
  intros Hb Ha Hwf. apply calc_div_returns; lia.
Qed.

Lemma calc_div_bounds_witness :
  calc_div 128 255 3 8 = ret ((128 / 8, 255 / 3), (0, 8 - 1)).
Proof. apply (calc_div_bounds 128 255 3 8); lia. Defined.

Example scenario_div : calc_div 128 255 3 8 = ret ((16, 85), (0, 7)).
Proof. reflexivity. Qed.

(** C10: under the preconditions b_lo <= b_hi, b_lo > 0 and a_lo >= 0 neither
    floor division inside the division operation divides by zero, so the
    operation does not end in ZeroDivisionError; the code itself checks only
    b_lo > 0 and a_lo >= 0, and so with an upper bound b_hi = 0 below a
    positive b_lo both checks pass and the first floor division raises. *)
Theorem calc_div_no_zero_division :
  (forall a_lo a_hi b_lo b_hi : Z,
      b_lo <= b_hi -> 0 < b_lo -> 0 <= a_lo ->
      floordiv a_lo b_hi = ret (a_lo / b_hi) /\
      floordiv a_hi b_lo = ret (a_hi / b_lo) /\
      forall e, snd (calc_div a_lo a_hi b_lo b_hi) <> Raised e) /\
  (forall a_lo a_hi b_lo : Z,
      0 < b_lo -> 0 <= a_lo ->
      calc_div a_lo a_hi b_lo 0 = raise ZeroDivisionError).
Proof.
  split.
  - intros a_lo a_hi b_lo b_hi Hwf Hb Ha.
    repeat split.
    + apply floordiv_nonzero; lia.
    + apply floordiv_nonzero; lia.
    + intros e. rewrite calc_div_returns by lia. discriminate.
  - apply calc_div_zero_upper_bound.
Qed.

Lemma calc_div_no_zero_division_witness :
  (floordiv 128 8 = ret (128 / 8) /\
   floordiv 255 3 = ret (255 / 3) /\
   forall e, snd (calc_div 128 255 3 8) <> Raised e) /\
  calc_div 0 5 1 0 = raise ZeroDivisionError.
Proof.
  split.
  - apply (proj1 calc_div_no_zero_division 128 255 3 8); lia.
  - apply (proj2 calc_div_no_zero_division 0 5 1); lia.
Defined.

(* ===================================================================== *)
(** ** Result intervals are ordered *)
(* ===================================================================== *)

(** C6: for every valid pair of input intervals (a_lo <= a_hi and
    b_lo <= b_hi, and for division additionally b_lo > 0 and a_lo >= 0), every
    result interval produced by add, sub, mul and div (the quotient and the
    remainder interval) satisfies lo <= hi. *)
Theorem results_ordered (a_lo a_hi b_lo b_hi : Z) :
  a_lo <= a_hi -> b_lo <= b_hi ->
  fst (calc_add a_lo a_hi b_lo b_hi) <= snd (calc_add a_lo a_hi b_lo b_hi) /\
  fst (calc_sub a_lo a_hi b_lo b_hi) <= snd (calc_sub a_lo a_hi b_lo b_hi) /\
  (exists lo hi, calc_mul a_lo a_hi b_lo b_hi = ret (lo, hi) /\ lo <= hi) /\
  (0 < b_lo -> 0 <= a_lo ->
   exists q_lo q_hi r_lo r_hi,
     calc_div a_lo a_hi b_lo b_hi = ret ((q_lo, q_hi), (r_lo, r_hi)) /\
     q_lo <= q_hi /\ r_lo <= r_hi).
Proof.
  intros Ha Hb. repeat split.
  - unfold calc_add. cbn [fst snd]. lia.
  - unfold calc_sub. cbn [fst snd]. lia.
  - destruct (calc_mul_returns a_lo a_hi b_lo b_hi)
      as (lo & hi & Hmul & _ & Hlo_le & _ & Hhi_le).
    exists lo, hi. split; [exact Hmul |].
    transitivity (a_lo * b_lo).
    + apply Hlo_le. left; reflexivity.
    + apply Hhi_le. left; reflexivity.
  - intros Hpos Hnn.
    exists (a_lo / b_hi), (a_hi / b_lo), 0, (b_hi - 1).
    split; [apply calc_div_returns; lia |].
    split; [| lia].
    transitivity (a_lo / b_lo).
    + apply Z.div_le_compat_l; lia.
    + apply Z.div_le_mono; lia.
Qed.

Lemma results_ordered_witness :
  fst (calc_add 128 255 3 8) <= snd (calc_add 128 255 3 8) /\
  fst (calc_sub 128 255 3 8) <= snd (calc_sub 128 255 3 8) /\
  (exists lo hi, calc_mul 128 255 3 8 = ret (lo, hi) /\ lo <= hi) /\
  (exists q_lo q_hi r_lo r_hi,
     calc_div 128 255 3 8 = ret ((q_lo, q_hi), (r_lo, r_hi)) /\
     q_lo <= q_hi /\ r_lo <= r_hi).
Proof.
  destruct (results_ordered 128 255 3 8 ltac:(lia) ltac:(lia))
    as (Hadd & Hsub & Hmul & Hdiv).
  repeat split; try assumption.
  apply Hdiv; lia.
Defined.

(* ===================================================================== *)
(** ** How the process ends *)
(* ===================================================================== *)

Lemma run_div_divisor_not_positive (a_lo a_hi b_lo b_hi : Z) (name : string) :
  b_lo <= 0 ->
  run (main (MkArgs Div a_lo a_hi b_lo b_hi name)) =
  Process [Stderr "ERROR: Divisor lower bound must be positive!"] 1.
Proof.
  intros Hb. apply run_main_exited. cbn [generate_impl]. unfold generate_div_impl.
  rewrite calc_div_divisor_not_positive by assumption. reflexivity.
Qed.

Lemma run_div_dividend_negative (a_lo a_hi b_lo b_hi : Z) (name : string) :
  0 < b_lo -> a_lo < 0 ->
  run (main (MkArgs Div a_lo a_hi b_lo b_hi name)) =
  Process [Stderr "ERROR: Dividend lower bound must be non-negative! Cairo's bounded_int_div_rem does not support negative dividends."] 1.
Proof.
  intros Hb Ha. apply run_main_exited. cbn [generate_impl]. unfold generate_div_impl.
  rewrite calc_div_dividend_negative by assumption. reflexivity.
Qed.

(** An addition whose lower result bound is out of range but converts, and
    whose upper result bound has too many digits: the first warning is
    written, the second conversion raises. *)
Lemma run_add_long_result (a_lo a_hi b_lo b_hi : Z) (name : string) :
  renders (a_lo + b_lo) -> ~ in_felt252_range (a_lo + b_lo) ->
  ~ renders (a_hi + b_hi) ->
  run (main (MkArgs Add a_lo a_hi b_lo b_hi name)) =
  Process [Stderr ("WARNING: " ++ "Result min" ++ " = " ++ decimal (a_lo + b_lo)
                   ++ " exceeds felt252 range!");
           Traceback ValueError] 1.
Proof.
  intros Hlo Hout Hhi.
  assert (Hg : generate_impl Add a_lo a_hi b_lo b_hi name =
               (warn (a_lo + b_lo) "Result min", Raised ValueError)).
  { cbn [generate_impl]. unfold generate_add_impl, calc_add. cbv zeta.
    rewrite (validate_felt252_eq (a_lo + b_lo)) by assumption.
    rewrite bind_returned. cbv beta.
    rewrite (validate_felt252_too_long (a_hi + b_hi)) by assumption.
    unfold raise. rewrite bind_raised. cbn [fst snd].
    rewrite app_nil_r. reflexivity. }
  rewrite (run_main_raised _ _ _ _ _ _ _ _ Hg).
  rewrite (warn_out_of_range _ _ Hout). reflexivity.
Qed.

Lemma str_limit_unfold : str_limit = 10 * 10 ^ 4299.
Proof.
  unfold str_limit, MAX_STR_DIGITS. change 4300 with (Z.succ 4299).
  apply Z.pow_succ_r. lia.
Qed.

(** 9 * 10^4299 has 4300 digits; twice as much has 4301. *)
Lemma nine_e4299_renders : renders (9 * 10 ^ 4299).
Proof.
  unfold renders. rewrite str_limit_unfold.
  assert (Hpos : 0 < 10 ^ 4299) by (apply Z.pow_pos_nonneg; lia).
  revert Hpos. generalize (10 ^ 4299). intros x Hx. lia.
Qed.

Lemma twice_nine_e4299_too_long : ~ renders (9 * 10 ^ 4299 + 9 * 10 ^ 4299).
Proof.
  unfold renders. rewrite str_limit_unfold.
  assert (Hpos : 0 < 10 ^ 4299) by (apply Z.pow_pos_nonneg; lia).
  revert Hpos. generalize (10 ^ 4299). intros x Hx. lia.
Qed.

(** C4, where the code departs from it: an addition of the intervals
    [P, 9 * 10^4299] and [0, 9 * 10^4299], P the modulus, fails fatally.  The
    four bounds have at most 4300 digits each, so they are arguments the
    parser delivers; the lower result bound P gets its warning, and the
    conversion of the upper result bound, of 4301 digits, raises [ValueError]
    inside [validate_felt252]: the run ends with a warning and a traceback on
    the error channel, exit status 1 and no declaration. *)
Theorem add_fails_fatally_on_long_result :
  Forall renders [FELT252_PRIME; 9 * 10 ^ 4299; 0; 9 * 10 ^ 4299] /\
  run (main (MkArgs Add FELT252_PRIME (9 * 10 ^ 4299) 0 (9 * 10 ^ 4299) "AddImpl")) =
    Process [Stderr ("WARNING: " ++ "Result min" ++ " = " ++ decimal FELT252_PRIME
                     ++ " exceeds felt252 range!");
             Traceback ValueError] 1 /\
  fails_fatally
    (run (main (MkArgs Add FELT252_PRIME (9 * 10 ^ 4299) 0 (9 * 10 ^ 4299) "AddImpl"))).
Proof.
  assert (Hrun := run_add_long_result FELT252_PRIME (9 * 10 ^ 4299) 0 (9 * 10 ^ 4299)
                    "AddImpl").
  rewrite Z.add_0_r in Hrun.
  assert (Hlo : renders FELT252_PRIME).
  { unfold renders. pose proof FELT252_PRIME_lt_str_limit.
    pose proof FELT252_PRIME_pos. lia. }
  assert (Hout : ~ in_felt252_range FELT252_PRIME)
    by (unfold in_felt252_range; lia).
  specialize (Hrun Hlo Hout twice_nine_e4299_too_long).
  split.
  { apply Forall_cons; [exact Hlo |].
    apply Forall_cons; [exact nine_e4299_renders |].
    apply Forall_cons; [apply small_renders; reflexivity |].
    apply Forall_cons; [exact nine_e4299_renders |]. apply Forall_nil. }
  split; [exact Hrun |]. rewrite Hrun.
  unfold fails_fatally, stderr, stdout.
  cbn [trace exit_status filter is_stdout negb].
  repeat split; discriminate.
Qed.

(** C5, where the code departs from it: for a value of more than 4300 digits,
    which is out of the felt252 range, the validator writes no warning and
    does not return: the conversion of the value inside its f-string raises
    [ValueError]. *)
Theorem validate_felt252_raises_on_long_value (value : Z) (name : string) :
  str_limit <= Z.abs value ->
  ~ in_felt252_range value /\ validate_felt252 value name = raise ValueError.
Proof.
  intros Hlong.
  assert (Hn : ~ renders value) by (unfold renders; lia).
  split.
  - intros Hin. apply Hn, in_felt252_range_renders, Hin.
  - apply validate_felt252_too_long. exact Hn.
Qed.

Lemma validate_felt252_raises_on_long_value_witness :
  ~ in_felt252_range (10 ^ 4300) /\
  validate_felt252 (10 ^ 4300) "Result max" = raise ValueError.
Proof.
  apply (validate_felt252_raises_on_long_value (10 ^ 4300) "Result max"%string).
  unfold str_limit, MAX_STR_DIGITS. generalize (10 ^ 4300). intros x. lia.
Defined.

(** The run in which that happens: adding [0, 5 * 10^4299] to itself gives the
    upper result bound 10^4300, and the declaration is never printed. *)
Lemma run_add_suppressed_declaration :
  run (main (MkArgs Add 0 (5 * 10 ^ 4299) 0 (5 * 10 ^ 4299) "AddImpl")) =
  Process [Traceback ValueError] 1.
Proof.
  assert (Hg : generate_impl Add 0 (5 * 10 ^ 4299) 0 (5 * 10 ^ 4299) "AddImpl" =
               ([], Raised ValueError)).
  { cbn [generate_impl]. unfold generate_add_impl, calc_add. cbv zeta.
    rewrite (validate_felt252_in_range (0 + 0)).
    2: { unfold in_felt252_range. pose proof FELT252_PRIME_pos. lia. }
    rewrite bind_ret_l.
    rewrite (validate_felt252_too_long (5 * 10 ^ 4299 + 5 * 10 ^ 4299)).
    2: { unfold renders. rewrite str_limit_unfold.
         assert (Hpos : 0 < 10 ^ 4299) by (apply Z.pow_pos_nonneg; lia).
         revert Hpos. generalize (10 ^ 4299). intros x Hx. lia. }
    reflexivity. }
  rewrite (run_main_raised _ _ _ _ _ _ _ _ Hg). reflexivity.
Qed.
(* ===================================================================== *)
(** ** The result intervals enclose every result *)
(* ===================================================================== *)

(** X1: the sum of a member of the first interval and a member of the second
    lies in the interval [calc_add] returns. *)
Theorem calc_add_sound (a_lo a_hi b_lo b_hi x y : Z) :
  member x (a_lo, a_hi) -> member y (b_lo, b_hi) ->
  member (x + y) (calc_add a_lo a_hi b_lo b_hi).
Proof.
  unfold member, calc_add. cbn [fst snd]. lia.
Qed.

Lemma calc_add_sound_witness : member (130 + 5) (calc_add 128 255 3 8).
Proof.
  apply (calc_add_sound 128 255 3 8 130 5); unfold member; cbn [fst snd]; lia.
Defined.

(** X2: the difference of a member of the first interval and a member of the
    second lies in the interval [calc_sub] returns. *)
Theorem calc_sub_sound (a_lo a_hi b_lo b_hi x y : Z) :
  member x (a_lo, a_hi) -> member y (b_lo, b_hi) ->
  member (x - y) (calc_sub a_lo a_hi b_lo b_hi).
Proof.
  unfold member, calc_sub. cbn [fst snd]. lia.
Qed.

Lemma calc_sub_sound_witness : member (130 - 5) (calc_sub 128 255 3 8).
Proof.
  apply (calc_sub_sound 128 255 3 8 130 5); unfold member; cbn [fst snd]; lia.
Defined.

(** A product with one factor fixed lies between the products with the ends
    of the other factor's interval. *)
Lemma mul_between (a y b_lo b_hi : Z) :
  b_lo <= y <= b_hi ->
  Z.min (a * b_lo) (a * b_hi) <= a * y <= Z.max (a * b_lo) (a * b_hi).
Proof.
  intros Hy. destruct (Z.le_gt_cases 0 a) as [Ha | Ha].
  - assert (a * b_lo <= a * y) by (apply Z.mul_le_mono_nonneg_l; lia).
    assert (a * y <= a * b_hi) by (apply Z.mul_le_mono_nonneg_l; lia).
    lia.
  - assert (a * y <= a * b_lo) by (apply Z.mul_le_mono_nonpos_l; lia).
    assert (a * b_hi <= a * y) by (apply Z.mul_le_mono_nonpos_l; lia).
    lia.
Qed.

Lemma corners_enclose (a_lo a_hi b_lo b_hi x y : Z) :
  a_lo <= x <= a_hi -> b_lo <= y <= b_hi ->
  Z.min (Z.min (a_lo * b_lo) (a_lo * b_hi)) (Z.min (a_hi * b_lo) (a_hi * b_hi))
    <= x * y <=
  Z.max (Z.max (a_lo * b_lo) (a_lo * b_hi)) (Z.max (a_hi * b_lo) (a_hi * b_hi)).
Proof.
  intros Hx Hy.
  pose proof (mul_between a_lo y b_lo b_hi Hy) as Hlo.
  pose proof (mul_between a_hi y b_lo b_hi Hy) as Hhi.
  assert (Hxy : Z.min (a_lo * y) (a_hi * y) <= x * y <= Z.max (a_lo * y) (a_hi * y)).
  { rewrite !(Z.mul_comm _ y). apply mul_between. exact Hx. }
  lia.
Qed.

(** X3: the product of a member of the first interval and a member of the
    second lies in the interval [calc_mul] returns, whatever the signs. *)
Theorem calc_mul_sound (a_lo a_hi b_lo b_hi x y : Z) :
  member x (a_lo, a_hi) -> member y (b_lo, b_hi) ->
  exists r, calc_mul a_lo a_hi b_lo b_hi = ret r /\ member (x * y) r.
Proof.
  unfold member. cbn [fst snd]. intros Hx Hy.
  eexists. split; [apply calc_mul_min_max |].
  cbn [fst snd]. apply corners_enclose; assumption.
Qed.

Lemma calc_mul_sound_witness :
  exists r, calc_mul (-3) 4 (-5) 2 = ret r /\ member (-2 * -4) r.
Proof.
  apply (calc_mul_sound (-3) 4 (-5) 2 (-2) (-4)); unfold member; cbn [fst snd]; lia.
Defined.

(** X4: with both checks passed, the floor quotient of a member of the
    dividend interval by a member of the divisor interval lies in the
    quotient interval, and the remainder lies in the remainder interval. *)
Theorem calc_div_sound (a_lo a_hi b_lo b_hi x y : Z) :
  0 < b_lo -> 0 <= a_lo ->
  member x (a_lo, a_hi) -> member y (b_lo, b_hi) ->
  exists q r,
    calc_div a_lo a_hi b_lo b_hi = ret (q, r) /\
    member (x / y) q /\ member (x mod y) r.
Proof.
  unfold member. cbn [fst snd]. intros Hb Ha Hx Hy.
  do 2 eexists. split; [apply calc_div_returns; lia |].
  cbn [fst snd]. repeat split.
  - transitivity (a_lo / y).
    + apply Z.div_le_compat_l; lia.
    + apply Z.div_le_mono; lia.
  - transitivity (a_hi / y).
    + apply Z.div_le_mono; lia.
    + apply Z.div_le_compat_l; lia.
  - apply Z.mod_pos_bound; lia.
  - assert (x mod y < y) by (apply Z.mod_pos_bound; lia). lia.
Qed.

Lemma calc_div_sound_witness :
  exists q r,
    calc_div 128 255 3 8 = ret (q, r) /\
    member (200 / 7) q /\ member (200 mod 7) r.
Proof.
  apply (calc_div_sound 128 255 3 8 200 7); unfold member; cbn [fst snd]; lia.
Defined.

(* ===================================================================== *)
(** ** The result intervals are exact *)
(* ===================================================================== *)

Lemma member_lo (lo hi : Z) : lo <= hi -> member lo (lo, hi).
Proof. unfold member. cbn [fst snd]. lia. Qed.

Lemma member_hi (lo hi : Z) : lo <= hi -> member hi (lo, hi).
Proof. unfold member. cbn [fst snd]. lia. Qed.

(** X5: for non-empty input intervals both bounds [calc_add] returns are sums
    of members, and both bounds [calc_sub] returns are differences of
    members: neither interval can be narrowed. *)
Theorem calc_add_sub_attained (a_lo a_hi b_lo b_hi : Z) :
  a_lo <= a_hi -> b_lo <= b_hi ->
  (exists x y, member x (a_lo, a_hi) /\ member y (b_lo, b_hi) /\
               x + y = fst (calc_add a_lo a_hi b_lo b_hi)) /\
  (exists x y, member x (a_lo, a_hi) /\ member y (b_lo, b_hi) /\
               x + y = snd (calc_add a_lo a_hi b_lo b_hi)) /\
  (exists x y, member x (a_lo, a_hi) /\ member y (b_lo, b_hi) /\
               x - y = fst (calc_sub a_lo a_hi b_lo b_hi)) /\
  (exists x y, member x (a_lo, a_hi) /\ member y (b_lo, b_hi) /\
               x - y = snd (calc_sub a_lo a_hi b_lo b_hi)).
Proof.
  intros Ha Hb. repeat split.
  - exists a_lo, b_lo. auto using member_lo.
  - exists a_hi, b_hi. auto using member_hi.
  - exists a_lo, b_hi. auto using member_lo, member_hi.
  - exists a_hi, b_lo. auto using member_lo, member_hi.
Qed.

Lemma calc_add_sub_attained_witness :
  (exists x y, member x (0, 12288) /\ member y (0, 12288) /\
               x + y = fst (calc_add 0 12288 0 12288)) /\
  (exists x y, member x (0, 12288) /\ member y (0, 12288) /\
               x + y = snd (calc_add 0 12288 0 12288)) /\
  (exists x y, member x (0, 12288) /\ member y (0, 12288) /\
               x - y = fst (calc_sub 0 12288 0 12288)) /\
  (exists x y, member x (0, 12288) /\ member y (0, 12288) /\
               x - y = snd (calc_sub 0 12288 0 12288)).
Proof. apply (calc_add_sub_attained 0 12288 0 12288); lia. Defined.

(** Every corner product is the product of two members. *)
Lemma corner_is_product (a_lo a_hi b_lo b_hi c : Z) :
  a_lo <= a_hi -> b_lo <= b_hi ->
  In c (corner_products a_lo a_hi b_lo b_hi) ->
  exists x y, member x (a_lo, a_hi) /\ member y (b_lo, b_hi) /\ x * y = c.
Proof.
  intros Ha Hb [<- | [<- | [<- | [<- | []]]]].
  - exists a_lo, b_lo. auto using member_lo.
  - exists a_lo, b_hi. auto using member_lo, member_hi.
  - exists a_hi, b_lo. auto using member_lo, member_hi.
  - exists a_hi, b_hi. auto using member_hi.
Qed.

(** X6: for non-empty input intervals both bounds [calc_mul] returns are
    products of members. *)
Theorem calc_mul_attained (a_lo a_hi b_lo b_hi : Z) :
  a_lo <= a_hi -> b_lo <= b_hi ->
  exists lo hi,
    calc_mul a_lo a_hi b_lo b_hi = ret (lo, hi) /\
    (exists x y, member x (a_lo, a_hi) /\ member y (b_lo, b_hi) /\ x * y = lo) /\
    (exists x y, member x (a_lo, a_hi) /\ member y (b_lo, b_hi) /\ x * y = hi).
Proof.
  intros Ha Hb.
  destruct (calc_mul_returns a_lo a_hi b_lo b_hi) as (lo & hi & Hmul & Hlo & _ & Hhi & _).
  exists lo, hi. split; [exact Hmul |].
  split; apply corner_is_product; assumption.
Qed.

Lemma calc_mul_attained_witness :
  exists lo hi,
    calc_mul (-3) 4 (-5) 2 = ret (lo, hi) /\
    (exists x y, member x (-3, 4) /\ member y (-5, 2) /\ x * y = lo) /\
    (exists x y, member x (-3, 4) /\ member y (-5, 2) /\ x * y = hi).
Proof. apply (calc_mul_attained (-3) 4 (-5) 2); lia. Defined.

(** X7: for non-empty input intervals that pass both checks, both bounds of
    the quotient interval are floor quotients of members. *)
Theorem calc_div_quotient_attained (a_lo a_hi b_lo b_hi : Z) :
  0 < b_lo -> 0 <= a_lo -> a_lo <= a_hi -> b_lo <= b_hi ->
  exists q_lo q_hi r,
    calc_div a_lo a_hi b_lo b_hi = ret ((q_lo, q_hi), r) /\
    (exists x y, member x (a_lo, a_hi) /\ member y (b_lo, b_hi) /\ x / y = q_lo) /\
    (exists x y, member x (a_lo, a_hi) /\ member y (b_lo, b_hi) /\ x / y = q_hi).
Proof.
  intros Hpos Hnn Ha Hb.
  do 3 eexists. split; [apply calc_div_returns; lia |]. split.
  - exists a_lo, b_hi. auto using member_lo, member_hi.
  - exists a_hi, b_lo. auto using member_lo, member_hi.
Qed.

Lemma calc_div_quotient_attained_witness :
  exists q_lo q_hi r,
    calc_div 128 255 3 8 = ret ((q_lo, q_hi), r) /\
    (exists x y, member x (128, 255) /\ member y (3, 8) /\ x / y = q_lo) /\
    (exists x y, member x (128, 255) /\ member y (3, 8) /\ x / y = q_hi).
Proof. apply (calc_div_quotient_attained 128 255 3 8); lia. Defined.

(** X8: the remainder interval is the exact range of remainders as soon as the
    dividend interval starts at 0 and reaches b_hi - 1: both of its bounds are
    then remainders of members. *)
Theorem calc_div_remainder_attained (a_hi b_lo b_hi : Z) :
  0 < b_lo -> b_lo <= b_hi -> b_hi - 1 <= a_hi ->
  exists q r_lo r_hi,
    calc_div 0 a_hi b_lo b_hi = ret (q, (r_lo, r_hi)) /\
    (exists x y, member x (0, a_hi) /\ member y (b_lo, b_hi) /\ x mod y = r_lo) /\
    (exists x y, member x (0, a_hi) /\ member y (b_lo, b_hi) /\ x mod y = r_hi).
Proof.
  intros Hpos Hb Ha.
  do 3 eexists. split; [apply calc_div_returns; lia |]. split.
  - exists 0, b_hi. unfold member. cbn [fst snd].
    split; [lia |]. split; [lia |]. apply Zmod_0_l.
  - exists (b_hi - 1), b_hi. unfold member. cbn [fst snd].
    split; [lia |]. split; [lia |]. apply Z.mod_small. lia.
Qed.

Lemma calc_div_remainder_attained_witness :
  exists q r_lo r_hi,
    calc_div 0 255 3 8 = ret (q, (r_lo, r_hi)) /\
    (exists x y, member x (0, 255) /\ member y (3, 8) /\ x mod y = r_lo) /\
    (exists x y, member x (0, 255) /\ member y (3, 8) /\ x mod y = r_hi).
Proof. apply (calc_div_remainder_attained 255 3 8); lia. Defined.

(* ===================================================================== *)
(** ** Laws of the interval operations *)
(* ===================================================================== *)

(** X9: for intervals of non-negative numbers the four corners need not be
    compared: the product interval is (a_lo * b_lo, a_hi * b_hi), the
    unsigned case of the docstring. *)
Theorem calc_mul_unsigned (a_lo a_hi b_lo b_hi : Z) :
  0 <= a_lo -> a_lo <= a_hi -> 0 <= b_lo -> b_lo <= b_hi ->
  calc_mul a_lo a_hi b_lo b_hi = ret (a_lo * b_lo, a_hi * b_hi).
Proof.
  intros Ha0 Ha Hb0 Hb. rewrite calc_mul_min_max.
  assert (a_lo * b_lo <= a_lo * b_hi) by (apply Z.mul_le_mono_nonneg_l; lia).
  assert (a_lo * b_lo <= a_hi * b_lo) by (apply Z.mul_le_mono_nonneg_r; lia).
  assert (a_lo * b_hi <= a_hi * b_hi) by (apply Z.mul_le_mono_nonneg_r; lia).
  assert (a_hi * b_lo <= a_hi * b_hi) by (apply Z.mul_le_mono_nonneg_l; lia).
  unfold ret. do 3 f_equal; lia.
Qed.

Lemma calc_mul_unsigned_witness :
  calc_mul 2 12288 3 12288 = ret (2 * 3, 12288 * 12288).
Proof. apply (calc_mul_unsigned 2 12288 3 12288); lia. Defined.

(** X10: addition and multiplication of intervals do not depend on the order
    of the two operands. *)
Theorem calc_add_mul_comm (a_lo a_hi b_lo b_hi : Z) :
  calc_add a_lo a_hi b_lo b_hi = calc_add b_lo b_hi a_lo a_hi /\
  calc_mul a_lo a_hi b_lo b_hi = calc_mul b_lo b_hi a_lo a_hi.
Proof.
  split.
  - unfold calc_add. f_equal; lia.
  - rewrite !calc_mul_min_max.
    rewrite (Z.mul_comm b_lo a_lo), (Z.mul_comm b_lo a_hi),
      (Z.mul_comm b_hi a_lo), (Z.mul_comm b_hi a_hi).
    unfold ret. do 3 f_equal; lia.
Qed.

(** X11: multiplying a non-empty interval by a constant k, given as the
    interval (k, k), scales both bounds for k >= 0 and scales and swaps them
    for k <= 0; with k = -1 this is the negation of the interval. *)
Theorem calc_mul_constant (a_lo a_hi k : Z) :
  a_lo <= a_hi ->
  (0 <= k -> calc_mul a_lo a_hi k k = ret (a_lo * k, a_hi * k)) /\
  (k <= 0 -> calc_mul a_lo a_hi k k = ret (a_hi * k, a_lo * k)) /\
  calc_mul a_lo a_hi (-1) (-1) = ret (Neg (a_lo, a_hi)).
Proof.
  intros Ha.
  assert (Hpos : 0 <= k -> a_lo * k <= a_hi * k)
    by (intros; apply Z.mul_le_mono_nonneg_r; lia).
  assert (Hneg : k <= 0 -> a_hi * k <= a_lo * k)
    by (intros; apply Z.mul_le_mono_nonpos_r; lia).
  repeat split.
  - intros Hk. specialize (Hpos Hk). rewrite calc_mul_min_max.
    unfold ret. do 3 f_equal; lia.
  - intros Hk. specialize (Hneg Hk). rewrite calc_mul_min_max.
    unfold ret. do 3 f_equal; lia.
  - rewrite calc_mul_min_max. unfold Neg, ret. cbn [fst snd].
    do 3 f_equal; lia.
Qed.

Lemma calc_mul_constant_witness :
  calc_mul (-3) 4 5 5 = ret (-3 * 5, 4 * 5) /\
  calc_mul (-3) 4 (-5) (-5) = ret (4 * -5, -3 * -5) /\
  calc_mul (-3) 4 (-1) (-1) = ret (Neg (-3, 4)).
Proof.
  destruct (calc_mul_constant (-3) 4 5 ltac:(lia)) as (Hpos & _ & Hneg1).
  destruct (calc_mul_constant (-3) 4 (-5) ltac:(lia)) as (_ & Hneg & _).
  split; [apply Hpos; lia |]. split; [apply Hneg; lia | exact Hneg1].
Defined.

(** X12: the widths of the sum and of the difference are both the sum of the
    widths of the operands, so subtracting B from A + B does not give A back:
    it gives A widened by the width of B on either side. *)
Theorem calc_add_then_sub (a_lo a_hi b_lo b_hi : Z) :
  width (calc_add a_lo a_hi b_lo b_hi) = width (a_lo, a_hi) + width (b_lo, b_hi) /\
  width (calc_sub a_lo a_hi b_lo b_hi) = width (a_lo, a_hi) + width (b_lo, b_hi) /\
  calc_sub (fst (calc_add a_lo a_hi b_lo b_hi)) (snd (calc_add a_lo a_hi b_lo b_hi))
           b_lo b_hi
  = (a_lo - width (b_lo, b_hi), a_hi + width (b_lo, b_hi)).
Proof.
  unfold width, calc_add, calc_sub. cbn [fst snd].
  repeat split; try lia. f_equal; lia.
Qed.

(* ===================================================================== *)
(** ** Narrower inputs give narrower results *)
(* ===================================================================== *)

(** X13: if each operand interval is replaced by an interval inside it, the
    sum interval and the difference interval stay inside the former ones. *)
Theorem calc_add_sub_monotone (a_lo a_hi b_lo b_hi a_lo' a_hi' b_lo' b_hi' : Z) :
  included (a_lo, a_hi) (a_lo', a_hi') -> included (b_lo, b_hi) (b_lo', b_hi') ->
  included (calc_add a_lo a_hi b_lo b_hi) (calc_add a_lo' a_hi' b_lo' b_hi') /\
  included (calc_sub a_lo a_hi b_lo b_hi) (calc_sub a_lo' a_hi' b_lo' b_hi').
Proof.
  unfold included, calc_add, calc_sub. cbn [fst snd]. lia.
Qed.

Lemma calc_add_sub_monotone_witness :
  included (calc_add 130 200 4 6) (calc_add 128 255 3 8) /\
  included (calc_sub 130 200 4 6) (calc_sub 128 255 3 8).
Proof.
  apply (calc_add_sub_monotone 130 200 4 6 128 255 3 8);
    unfold included; cbn [fst snd]; lia.
Defined.

(** X14: if each operand interval is replaced by a non-empty interval inside
    it, the product interval stays inside the former one. *)
Theorem calc_mul_monotone (a_lo a_hi b_lo b_hi a_lo' a_hi' b_lo' b_hi' : Z) :
  a_lo <= a_hi -> b_lo <= b_hi ->
  included (a_lo, a_hi) (a_lo', a_hi') -> included (b_lo, b_hi) (b_lo', b_hi') ->
  exists r r',
    calc_mul a_lo a_hi b_lo b_hi = ret r /\
    calc_mul a_lo' a_hi' b_lo' b_hi' = ret r' /\
    included r r'.
Proof.
  unfold included. cbn [fst snd]. intros Ha Hb Hia Hib.
  destruct (calc_mul_returns a_lo a_hi b_lo b_hi) as (lo & hi & Hmul & Hlo & _ & Hhi & _).
  destruct (corner_is_product _ _ _ _ _ Ha Hb Hlo) as (x1 & y1 & Hx1 & Hy1 & <-).
  destruct (corner_is_product _ _ _ _ _ Ha Hb Hhi) as (x2 & y2 & Hx2 & Hy2 & <-).
  unfold member in *. cbn [fst snd] in *.
  exists (x1 * y1, x2 * y2). eexists.
  split; [exact Hmul |]. split; [apply calc_mul_min_max |].
  cbn [fst snd].
  pose proof (corners_enclose a_lo' a_hi' b_lo' b_hi' x1 y1 ltac:(lia) ltac:(lia)).
  pose proof (corners_enclose a_lo' a_hi' b_lo' b_hi' x2 y2 ltac:(lia) ltac:(lia)).
  lia.
Qed.

Lemma calc_mul_monotone_witness :
  exists r r',
    calc_mul (-2) 3 (-4) 1 = ret r /\
    calc_mul (-3) 4 (-5) 2 = ret r' /\
    included r r'.
Proof.
  apply (calc_mul_monotone (-2) 3 (-4) 1 (-3) 4 (-5) 2);
    unfold included; cbn [fst snd]; lia.
Defined.

(** X15: for division that passes both checks on the wider intervals,
    non-empty dividend and divisor intervals inside the wider ones give a
    quotient interval and a remainder interval inside the former ones. *)
Theorem calc_div_monotone (a_lo a_hi b_lo b_hi a_lo' a_hi' b_lo' b_hi' : Z) :
  0 < b_lo' -> 0 <= a_lo' -> a_lo <= a_hi -> b_lo <= b_hi ->
  included (a_lo, a_hi) (a_lo', a_hi') -> included (b_lo, b_hi) (b_lo', b_hi') ->
  exists q r q' r',
    calc_div a_lo a_hi b_lo b_hi = ret (q, r) /\
    calc_div a_lo' a_hi' b_lo' b_hi' = ret (q', r') /\
    included q q' /\ included r r'.
Proof.
  unfold included. cbn [fst snd]. intros Hpos Hnn Ha Hb Hia Hib.
  do 4 eexists.
  split; [apply calc_div_returns; lia |].
  split; [apply calc_div_returns; lia |].
  cbn [fst snd]. repeat split; try lia.
  - transitivity (a_lo' / b_hi).
    + apply Z.div_le_compat_l; lia.
    + apply Z.div_le_mono; lia.
  - transitivity (a_hi' / b_lo).
    + apply Z.div_le_mono; lia.
    + apply Z.div_le_compat_l; lia.
Qed.

Lemma calc_div_monotone_witness :
  exists q r q' r',
    calc_div 130 200 4 6 = ret (q, r) /\
    calc_div 128 255 3 8 = ret (q', r') /\
    included q q' /\ included r r'.
Proof.
  apply (calc_div_monotone 130 200 4 6 128 255 3 8);
    unfold included; cbn [fst snd]; lia.
Defined.

(* ===================================================================== *)
(** ** What a run writes and how it ends *)
(* ===================================================================== *)

Lemma ret_inj {A : Type} (a b : A) : ret a = ret b -> a = b.
Proof. intros H. injection H as H. exact H. Qed.

Lemma all_render_app (vals bs : list Z) :
  Forall renders vals -> Forall in_felt252_range bs -> Forall renders (vals ++ bs).
Proof.
  intros Hv Hb. apply Forall_app. split; [exact Hv |].
  revert Hb. apply Forall_impl. exact in_felt252_range_renders.
Qed.

(** X16: a run ends in the traceback of an uncaught ZeroDivisionError if and
    only if the operation is a division, both checks pass (b_lo > 0 and
    a_lo >= 0) and the upper bound b_hi of the divisor is zero. *)
Theorem zero_division_crash_iff
        (op : Operation) (a_lo a_hi b_lo b_hi : Z) (name : string) :
  In (Traceback ZeroDivisionError)
     (trace (run (main (MkArgs op a_lo a_hi b_lo b_hi name)))) <->
  op = Div /\ 0 < b_lo /\ 0 <= a_lo /\ b_hi = 0.
Proof.
  destruct (run_main_cases op a_lo a_hi b_lo b_hi name)
    as [(bs & w & s & Hbs & _ & Hw & _ & _ & ->)
       | [(bs & w & Hbs & _ & Hw & ->)
         | [(Hop & Hb & ->) | [(Hop & Hb & Ha & ->) | (Hop & Hb & Ha & Hhi & ->)]]]];
    cbn [trace].
  - split.
    + intros Hin. apply in_app_or in Hin. destruct Hin as [Hin | [Hin | []]].
      * destruct (silent_no_traceback w _ Hw Hin).
      * discriminate Hin.
    + intros (-> & _ & _ & Hhi).
      destruct (result_bounds_div_inv _ _ _ _ _ Hbs) as (_ & _ & Hnz & _).
      contradiction.
  - split.
    + intros Hin. apply in_app_or in Hin. destruct Hin as [Hin | [Hin | []]].
      * destruct (silent_no_traceback w _ Hw Hin).
      * discriminate Hin.
    + intros (-> & _ & _ & Hhi).
      destruct (result_bounds_div_inv _ _ _ _ _ Hbs) as (_ & _ & Hnz & _).
      contradiction.
  - split; [intros [Hin | []]; discriminate Hin | intros (_ & Hpos & _); lia].
  - split; [intros [Hin | []]; discriminate Hin | intros (_ & _ & Hnn & _); lia].
  - split; [intros _; repeat split; assumption | intros _; left; reflexivity].
Qed.

(** X21: a run ends in the traceback of an uncaught ValueError if and only if
    the interval computation returns and one of the four argument bounds or
    of the computed bounds has more than 4300 decimal digits. *)
Theorem value_error_crash_iff
        (op : Operation) (a_lo a_hi b_lo b_hi : Z) (name : string) :
  In (Traceback ValueError)
     (trace (run (main (MkArgs op a_lo a_hi b_lo b_hi name)))) <->
  exists bs,
    result_bounds op a_lo a_hi b_lo b_hi = ret bs /\
    ~ Forall renders ([a_lo; a_hi; b_lo; b_hi] ++ bs).
Proof.
  destruct (run_main_cases op a_lo a_hi b_lo b_hi name)
    as [(bs & w & s & Hbs & Hall & Hw & _ & _ & ->)
       | [(bs & w & Hbs & Hn & Hw & ->)
         | [(Hop & Hb & ->) | [(Hop & Hb & Ha & ->) | (Hop & Hb & Ha & Hhi & ->)]]]];
    cbn [trace].
  - split.
    + intros Hin. apply in_app_or in Hin. destruct Hin as [Hin | [Hin | []]].
      * destruct (silent_no_traceback w _ Hw Hin).
      * discriminate Hin.
    + intros (bs' & Hbs' & Hn). rewrite Hbs in Hbs'.
      apply ret_inj in Hbs'. subst bs'. contradiction.
  - split.
    + intros _. exists bs. split; assumption.
    + intros _. apply in_or_app. right. left. reflexivity.
  - split; [intros [Hin | []]; discriminate Hin |].
    intros (bs & Hbs & _). subst op.
    destruct (result_bounds_div_inv _ _ _ _ _ Hbs) as (Hpos & _). lia.
  - split; [intros [Hin | []]; discriminate Hin |].
    intros (bs & Hbs & _). subst op.
    destruct (result_bounds_div_inv _ _ _ _ _ Hbs) as (_ & Hnn & _). lia.
  - split; [intros [Hin | []]; discriminate Hin |].
    intros (bs & Hbs & _). subst op.
    destruct (result_bounds_div_inv _ _ _ _ _ Hbs) as (_ & _ & Hnz & _). contradiction.
Qed.

(** When the interval computation returns, the error channel stays empty
    exactly if every computed bound is in range and every argument bound can
    be converted to text. *)
Lemma no_warning_iff (op : Operation) (a_lo a_hi b_lo b_hi : Z) (name : string)
      (bs : list Z) :
  result_bounds op a_lo a_hi b_lo b_hi = ret bs ->
  stderr (run (main (MkArgs op a_lo a_hi b_lo b_hi name))) = [] <->
  Forall in_felt252_range bs /\ Forall renders [a_lo; a_hi; b_lo; b_hi].
Proof.
  intros Hbs.
  destruct (run_main_cases op a_lo a_hi b_lo b_hi name)
    as [(bs' & w & s & Hbs' & Hall & Hw & Hiff & _ & ->)
       | [(bs' & w & Hbs' & Hn & Hw & ->)
         | [(Hop & Hb & _) | [(Hop & Hb & Ha & _) | (Hop & Hb & Ha & Hhi & _)]]]].
  - rewrite Hbs in Hbs'. apply ret_inj in Hbs'. subst bs'.
    destruct (printed_observed w s Hw) as (_ & ->).
    apply Forall_app in Hall. destruct Hall as (Hin & _).
    rewrite Hiff. split; [intros H; split; assumption | intros (H & _); exact H].
  - rewrite Hbs in Hbs'. apply ret_inj in Hbs'. subst bs'.
    destruct (crashed_observed w ValueError Hw) as (_ & ->).
    split.
    + intros H. apply app_eq_nil in H. destruct H as (_ & H). discriminate H.
    + intros (Hin & Hr). destruct Hn. apply all_render_app; assumption.
  - subst op. destruct (result_bounds_div_inv _ _ _ _ _ Hbs) as (Hpos & _). lia.
  - subst op. destruct (result_bounds_div_inv _ _ _ _ _ Hbs) as (_ & Hnn & _). lia.
  - subst op. destruct (result_bounds_div_inv _ _ _ _ _ Hbs) as (_ & _ & Hnz & _).
    contradiction.
Qed.

Lemma in_range_pair (lo hi : Z) :
  Forall in_felt252_range [lo; hi] <-> in_felt252_range lo /\ in_felt252_range hi.
Proof.
  split.
  - intros H. apply Forall_cons_iff in H. destruct H as (H1 & H).
    apply Forall_cons_iff in H. destruct H as (H2 & _). split; assumption.
  - intros (H1 & H2). repeat (apply Forall_cons; [assumption |]). apply Forall_nil.
Qed.

(** X17: a run of add, sub or mul writes nothing to the error channel if and
    only if both bounds of the result interval lie in [-(P-1), P-1] and each
    of the four argument bounds has at most 4300 digits, as every argument
    that [parse_args] delivers has; whether the argument bounds are in range
    is never checked. *)
Theorem no_warning_iff_result_in_range (a_lo a_hi b_lo b_hi : Z) (name : string) :
  (stderr (run (main (MkArgs Add a_lo a_hi b_lo b_hi name))) = [] <->
   in_felt252_range (fst (calc_add a_lo a_hi b_lo b_hi)) /\
   in_felt252_range (snd (calc_add a_lo a_hi b_lo b_hi)) /\
   Forall renders [a_lo; a_hi; b_lo; b_hi]) /\
  (stderr (run (main (MkArgs Sub a_lo a_hi b_lo b_hi name))) = [] <->
   in_felt252_range (fst (calc_sub a_lo a_hi b_lo b_hi)) /\
   in_felt252_range (snd (calc_sub a_lo a_hi b_lo b_hi)) /\
   Forall renders [a_lo; a_hi; b_lo; b_hi]) /\
  (exists lo hi,
      calc_mul a_lo a_hi b_lo b_hi = ret (lo, hi) /\
      (stderr (run (main (MkArgs Mul a_lo a_hi b_lo b_hi name))) = [] <->
       in_felt252_range lo /\ in_felt252_range hi /\
       Forall renders [a_lo; a_hi; b_lo; b_hi])).
Proof.
  split; [| split].
  - rewrite (no_warning_iff Add a_lo a_hi b_lo b_hi name
               [a_lo + b_lo; a_hi + b_hi] eq_refl).
    rewrite in_range_pair. unfold calc_add. cbn [fst snd]. tauto.
  - rewrite (no_warning_iff Sub a_lo a_hi b_lo b_hi name
               [a_lo - b_hi; a_hi - b_lo] eq_refl).
    rewrite in_range_pair. unfold calc_sub. cbn [fst snd]. tauto.
  - destruct (calc_mul_returns a_lo a_hi b_lo b_hi) as (lo & hi & Hmul & _).
    exists lo, hi. split; [exact Hmul |].
    assert (Hbs : result_bounds Mul a_lo a_hi b_lo b_hi = ret [lo; hi])
      by (cbn [result_bounds]; rewrite Hmul, bind_ret_l; reflexivity).
    rewrite (no_warning_iff Mul a_lo a_hi b_lo b_hi name [lo; hi] Hbs).
    rewrite in_range_pair. tauto.
Qed.

(** X18: a division of non-empty intervals whose upper bounds are themselves
    within the modulus (a_hi < P and b_hi <= P) writes no warning: the whole
    output is the declaration, and the exit status is 0. *)
Theorem div_in_range_prints_only_declaration
        (a_lo a_hi b_lo b_hi : Z) (name : string) :
  0 < b_lo -> b_lo <= b_hi -> 0 <= a_lo -> a_lo <= a_hi ->
  a_hi < FELT252_PRIME -> b_hi <= FELT252_PRIME ->
  exists s, run (main (MkArgs Div a_lo a_hi b_lo b_hi name)) = Process [Stdout s] 0.
Proof.
  intros Hpos Hb Hnn Ha Hahi Hbhi.
  pose proof FELT252_PRIME_pos as HP.
  pose proof FELT252_PRIME_lt_str_limit as HL.
  assert (Hq_lo : 0 <= a_lo / b_hi) by (apply Z.div_pos; lia).
  assert (Hq_hi : a_hi / b_lo <= a_hi).
  { transitivity (a_hi / 1); [apply Z.div_le_compat_l; lia | rewrite Z.div_1_r; lia]. }
  assert (Hq : a_lo / b_hi <= a_hi / b_lo).
  { transitivity (a_lo / b_lo);
      [apply Z.div_le_compat_l; lia | apply Z.div_le_mono; lia]. }
  assert (Hin : Forall in_felt252_range [a_lo / b_hi; a_hi / b_lo; 0; b_hi - 1]).
  { repeat (apply Forall_cons; [unfold in_felt252_range; lia |]). apply Forall_nil. }
  assert (Hr : Forall renders [a_lo; a_hi; b_lo; b_hi]).
  { repeat (apply Forall_cons; [unfold renders; lia |]). apply Forall_nil. }
  destruct (run_main_cases Div a_lo a_hi b_lo b_hi name)
    as [(bs & w & s & Hbs & _ & _ & Hiff & _ & Hrun)
       | [(bs & w & Hbs & Hn & _ & _)
         | [(_ & Hbad & _) | [(_ & _ & Hbad & _) | (_ & _ & _ & Hbad & _)]]]];
    try lia.
  - destruct (result_bounds_div_inv _ _ _ _ _ Hbs) as (_ & _ & _ & ->).
    exists s. rewrite Hrun. rewrite (proj2 Hiff Hin). reflexivity.
  - destruct (result_bounds_div_inv _ _ _ _ _ Hbs) as (_ & _ & _ & ->).
    destruct Hn. apply all_render_app; assumption.
Qed.

Lemma div_in_range_prints_only_declaration_witness :
  exists s, run (main (MkArgs Div 128 255 3 8 "DivRemImpl")) = Process [Stdout s] 0.
Proof.
  apply (div_in_range_prints_only_declaration 128 255 3 8 "DivRemImpl");
    [lia | lia | lia | lia | reflexivity | apply Z.leb_le; reflexivity].
Defined.

(** X19: every run of the dispatch at the end of [main], on arguments that
    [parse_args] has returned, ends with exit status 0 or 1; the status is 0
    exactly when the renderer returned its declaration and that text, and
    nothing else, was written to standard output, and 1 exactly when standard
    output is empty. *)
Theorem exit_status_tells_declaration
        (op : Operation) (a_lo a_hi b_lo b_hi : Z) (name : string) :
  (exit_status (run (main (MkArgs op a_lo a_hi b_lo b_hi name))) = 0 \/
   exit_status (run (main (MkArgs op a_lo a_hi b_lo b_hi name))) = 1) /\
  (exit_status (run (main (MkArgs op a_lo a_hi b_lo b_hi name))) = 0 <->
   exists s,
     snd (generate_impl op a_lo a_hi b_lo b_hi name) = Returned s /\
     stdout (run (main (MkArgs op a_lo a_hi b_lo b_hi name))) = [Stdout s]) /\
  (exit_status (run (main (MkArgs op a_lo a_hi b_lo b_hi name))) = 1 <->
   stdout (run (main (MkArgs op a_lo a_hi b_lo b_hi name))) = []).
Proof.
  destruct (run_main_cases op a_lo a_hi b_lo b_hi name)
    as [(bs & w & s & _ & _ & Hw & _ & Hg & ->)
       | [(bs & w & _ & _ & Hw & ->)
         | [(_ & _ & ->) | [(_ & _ & _ & ->) | (_ & _ & _ & _ & ->)]]]].
  - destruct (printed_observed w s Hw) as (-> & _). rewrite Hg.
    cbn [exit_status snd]. split; [left; reflexivity |]. split; split.
    + intros _. exists s. split; reflexivity.
    + reflexivity.
    + discriminate.
    + discriminate.
  - destruct (crashed_observed w ValueError Hw) as (-> & _).
    cbn [exit_status]. split; [right; reflexivity |]. split; split.
    + discriminate.
    + intros (s & _ & Hs). discriminate Hs.
    + reflexivity.
    + reflexivity.
  - cbn. split; [right; reflexivity |]. split; split.
    + discriminate.
    + intros (s & _ & Hs). discriminate Hs.
    + reflexivity.
    + reflexivity.
  - cbn. split; [right; reflexivity |]. split; split.
    + discriminate.
    + intros (s & _ & Hs). discriminate Hs.
    + reflexivity.
    + reflexivity.
  - cbn. split; [right; reflexivity |]. split; split.
    + discriminate.
    + intros (s & _ & Hs). discriminate Hs.
    + reflexivity.
    + reflexivity.
Qed.

(** X20: a division that fails a check writes exactly one line, its error
    message, and ends with status 1 before any bound is validated.  The
    divisor is checked first: with both lower bounds bad only the divisor
    error is reported. *)
Theorem div_reports_first_failed_check (a_lo a_hi b_lo b_hi : Z) (name : string) :
  b_lo <= 0 \/ a_lo < 0 ->
  exists msg,
    run (main (MkArgs Div a_lo a_hi b_lo b_hi name)) = Process [Stderr msg] 1 /\
    (b_lo <= 0 -> msg = "ERROR: Divisor lower bound must be positive!"%string) /\
    (0 < b_lo ->
     msg = "ERROR: Dividend lower bound must be non-negative! Cairo's bounded_int_div_rem does not support negative dividends."%string).
Proof.
  intros Hbad. destruct (Z.leb_spec b_lo 0) as [Hb | Hb].
  - eexists. split; [apply run_div_divisor_not_positive; exact Hb |].
    split; [reflexivity | lia].
  - eexists. split; [apply run_div_dividend_negative; lia |].
    split; [lia | reflexivity].
Qed.

Lemma div_reports_first_failed_check_witness :
  exists msg,
    run (main (MkArgs Div (-1) 255 0 8 "DivRemImpl")) = Process [Stderr msg] 1 /\
    (0 <= 0 -> msg = "ERROR: Divisor lower bound must be positive!"%string) /\
    (0 < 0 ->
     msg = "ERROR: Dividend lower bound must be non-negative! Cairo's bounded_int_div_rem does not support negative dividends."%string).
Proof.
  apply (div_reports_first_failed_check (-1) 255 0 8 "DivRemImpl"). left. lia.
Defined.

Lemma fatal_exit_observed (msg : string) : fails_fatally (Process [Stderr msg] 1).
Proof.
  unfold fails_fatally, stderr, stdout. cbn. repeat split; discriminate.
Qed.

(** X22: when every argument bound and every computed bound has at most 4300
    digits, and the divisor of a division is an interval (b_lo <= b_hi), a run
    fails fatally (something on the error channel, a non-zero exit status,
    nothing on standard output) if and only if it is a division with
    b_lo <= 0 or a_lo < 0. *)
Theorem fails_fatally_iff_within_limits
        (op : Operation) (a_lo a_hi b_lo b_hi : Z) (name : string) :
  (op = Div -> b_lo <= b_hi) ->
  Forall renders [a_lo; a_hi; b_lo; b_hi] ->
  (forall bs, result_bounds op a_lo a_hi b_lo b_hi = ret bs -> Forall renders bs) ->
  fails_fatally (run (main (MkArgs op a_lo a_hi b_lo b_hi name))) <->
  op = Div /\ (b_lo <= 0 \/ a_lo < 0).
Proof.
  intros Hwf Hargs Hres.
  destruct (run_main_cases op a_lo a_hi b_lo b_hi name)
    as [(bs & w & s & Hbs & _ & Hw & _ & _ & ->)
       | [(bs & w & Hbs & Hn & _ & _)
         | [(-> & Hb & ->) | [(-> & Hb & Ha & ->) | (-> & Hb & Ha & Hhi & _)]]]].
  - split.
    + intros (_ & Hst & _). cbn [exit_status] in Hst. contradiction.
    + intros (-> & Hbad).
      destruct (result_bounds_div_inv _ _ _ _ _ Hbs) as (Hpos & Hnn & _). lia.
  - destruct Hn. apply Forall_app. split; [exact Hargs | exact (Hres bs Hbs)].
  - split; [intros _; split; [reflexivity | left; exact Hb] |].
    intros _. apply fatal_exit_observed.
  - split; [intros _; split; [reflexivity | right; exact Ha] |].
    intros _. apply fatal_exit_observed.
  - specialize (Hwf eq_refl). lia.
Qed.

Lemma fails_fatally_iff_within_limits_witness :
  fails_fatally (run (main (MkArgs Div 128 255 0 8 "DivRemImpl"))) <->
  Div = Div /\ (0 <= 0 \/ 128 < 0).
Proof.
  apply (fails_fatally_iff_within_limits Div 128 255 0 8 "DivRemImpl").
  - intros _. lia.
  - repeat (apply Forall_cons; [apply small_renders; reflexivity |]). apply Forall_nil.
  - intros bs H. discriminate H.
Defined.

(** X23: for a value of at most 4300 digits the validator always returns,
    having written either nothing or its one warning line, and it writes the
    warning if and only if the value lies outside [-(P-1), P-1]. *)
Theorem validate_felt252_within_limit (value : Z) (name : string) :
  renders value ->
  snd (validate_felt252 value name) = Returned tt /\
  (fst (validate_felt252 value name) = [] \/
   fst (validate_felt252 value name) =
     [Stderr ("WARNING: " ++ name ++ " = " ++ decimal value ++ " exceeds felt252 range!")]) /\
  (fst (validate_felt252 value name) <> [] <-> ~ in_felt252_range value).
Proof.
  intros Hr. rewrite (validate_felt252_eq value name Hr). cbn [fst snd].
  split; [reflexivity |]. split.
  - unfold warn. destruct (_ || _); [right | left]; reflexivity.
  - rewrite warn_nonempty_iff. unfold in_felt252_range.
    pose proof FELT252_PRIME_pos. lia.
Qed.

Lemma validate_felt252_within_limit_witness :
  snd (validate_felt252 (2 ^ 252) "Result max") = Returned tt /\
  (fst (validate_felt252 (2 ^ 252) "Result max") = [] \/
   fst (validate_felt252 (2 ^ 252) "Result max") =
     [Stderr ("WARNING: " ++ "Result max" ++ " = " ++ decimal (2 ^ 252)
              ++ " exceeds felt252 range!")]) /\
  (fst (validate_felt252 (2 ^ 252) "Result max") <> [] <-> ~ in_felt252_range (2 ^ 252)).
Proof.
  apply (validate_felt252_within_limit (2 ^ 252) "Result max"%string).
  unfold renders. apply Z.lt_le_trans with (10 ^ 77); [reflexivity |].
  unfold str_limit. apply Z.pow_le_mono_r; [lia | unfold MAX_STR_DIGITS; lia].
Defined.
